(** * kafka-proxy: the TLS trust-material builder ([proxy/tls.go])

    A shallow embedding of [proxy/tls.go]: the static cipher-suite and curve
    tables, the name resolvers [getCipherSuites] and [getCurvePreferences],
    the encrypted-PEM decryptor [decryptPEM] and the two configuration
    builders [newTLSListenerConfig] and [newTLSClientConfig].

    Go maps are [gmap]s, byte slices are lists of bytes, strings are byte
    strings, a Go [(value, error)] result is a sum, and file reads are
    threaded through a small monad that records which paths were read. *)

From Stdlib Require Import ZArith NArith List Ascii String Permutation.
From Stdlib Require Strings.Byte.
From stdpp Require Import base option gmap strings list fin_maps.

Local Open Scope Z_scope.
Local Open Scope string_scope.

(** ** Go values *)

Module Go.

(** [[]byte]. *)
Definition bytes : Type := list Byte.byte.

(** Go's [error] values, identified by their message. *)
Record error : Type := mkError { Error : string }.

(** A Go result pair [(v, err)]: either [err == nil] and [v] is the value,
    or [err != nil] (the functions of this file then return a nil value). *)
Inductive result (A : Type) : Type :=
| Ok (v : A)
| Err (e : error).
Arguments Ok {A} v.
Arguments Err {A} e.

Definition isOk {A} (r : result A) : bool :=
  match r with Ok _ => true | Err _ => false end.

(** [errors.New(msg)]. *)
Definition errors_New (msg : string) : error := mkError msg.

(** [errors.Errorf(pre + "%s" + post, arg)] for a format with one [%s]. *)
Definition errors_Errorf1 (pre arg post : string) : error :=
  mkError (pre +:+ arg +:+ post).

(** [[]byte(s)]. *)
Definition bytes_of_string (s : string) : bytes := list_byte_of_string s.

(** [s] occurs in [t] as a contiguous substring. *)
Definition contains (t s : string) : Prop :=
  exists pre post : string, t = pre +:+ s +:+ post.

End Go.
Export Go.

(** ** [strings.TrimSpace]

    Go trims every leading and trailing rune for which [unicode.IsSpace]
    holds.  A Go string is a byte string read as UTF-8; the white-space
    runes and their encodings are
    U+0009..U+000D and U+0020 (one byte), U+0085 and U+00A0 ([C2 85],
    [C2 A0]), U+1680 ([E1 9A 80]), U+2000..U+200A ([E2 80 80..8A]), U+2028,
    U+2029, U+202F ([E2 80 A8], [E2 80 A9], [E2 80 AF]), U+205F
    ([E2 81 9F]) and U+3000 ([E3 80 80]).  A byte sequence that is not
    valid UTF-8 decodes to U+FFFD, which is not white space. *)

Module Strings.

Definition code (c : ascii) : N := N_of_ascii c.

Definition asciiSpace (c : N) : bool :=
  ((9 <=? c) && (c <=? 13))%N || (c =? 32)%N.

(** The tail bytes (after the lead byte) of a multi-byte white-space rune. *)
Definition spaceTail2 (b0 b1 : N) : bool :=
  ((b0 =? 0xC2) && ((b1 =? 0x85) || (b1 =? 0xA0)))%N.

Definition spaceTail3 (b0 b1 b2 : N) : bool :=
  (((b0 =? 0xE1) && (b1 =? 0x9A) && (b2 =? 0x80))
   || ((b0 =? 0xE2) && (b1 =? 0x80)
       && (((0x80 <=? b2) && (b2 <=? 0x8A))
           || (b2 =? 0xA8) || (b2 =? 0xA9) || (b2 =? 0xAF)))
   || ((b0 =? 0xE2) && (b1 =? 0x81) && (b2 =? 0x9F))
   || ((b0 =? 0xE3) && (b1 =? 0x80) && (b2 =? 0x80)))%N.

(** Width in bytes of the white-space rune at the head of [l]; 0 if the
    first rune is not white space (or [l] is empty). *)
Definition leadingSpace (l : list ascii) : nat :=
  match l with
  | [] => 0%nat
  | c0 :: r =>
      if asciiSpace (code c0) then 1%nat
      else match r with
           | [] => 0%nat
           | c1 :: r' =>
               if spaceTail2 (code c0) (code c1) then 2%nat
               else match r' with
                    | [] => 0%nat
                    | c2 :: _ =>
                        if spaceTail3 (code c0) (code c1) (code c2)
                        then 3%nat else 0%nat
                    end
           end
  end.

(** The same for the rune at the end, on the reversed byte list. *)
Definition trailingSpace (rl : list ascii) : nat :=
  match rl with
  | [] => 0%nat
  | c0 :: r =>
      if asciiSpace (code c0) then 1%nat
      else match r with
           | [] => 0%nat
           | c1 :: r' =>
               if spaceTail2 (code c1) (code c0) then 2%nat
               else match r' with
                    | [] => 0%nat
                    | c2 :: _ =>
                        if spaceTail3 (code c2) (code c1) (code c0)
                        then 3%nat else 0%nat
                    end
           end
  end.

Fixpoint trimWith (width : list ascii -> nat) (fuel : nat)
         (l : list ascii) : list ascii :=
  match fuel with
  | O => l
  | S fuel' =>
      match width l with
      | O => l
      | S w => trimWith width fuel' (drop (S w) l)
      end
  end.

Definition TrimSpace (s : string) : string :=
  let l := list_ascii_of_string s in
  let l1 := trimWith leadingSpace (length l) l in
  let l2 := trimWith trailingSpace (length l1) (rev l1) in
  string_of_list_ascii (rev l2).

End Strings.

(** ** Identifiers of [crypto/tls] used by the tables *)

Module tls.

(** [tls.CurveID], a [uint16]. *)
Definition CurveID : Type := Z.
Definition CurveP256 : CurveID := 23.
Definition CurveP384 : CurveID := 24.
Definition CurveP521 : CurveID := 25.
Definition X25519 : CurveID := 29.

(** Cipher-suite identifiers, [uint16]. *)
Definition TLS_RSA_WITH_3DES_EDE_CBC_SHA : Z := 0x000a.
Definition TLS_RSA_WITH_AES_128_CBC_SHA : Z := 0x002f.
Definition TLS_RSA_WITH_AES_256_CBC_SHA : Z := 0x0035.
Definition TLS_ECDHE_ECDSA_WITH_AES_128_CBC_SHA : Z := 0xc009.
Definition TLS_ECDHE_ECDSA_WITH_AES_256_CBC_SHA : Z := 0xc00a.
Definition TLS_ECDHE_RSA_WITH_3DES_EDE_CBC_SHA : Z := 0xc012.
Definition TLS_ECDHE_RSA_WITH_AES_128_CBC_SHA : Z := 0xc013.
Definition TLS_ECDHE_RSA_WITH_AES_256_CBC_SHA : Z := 0xc014.
Definition TLS_ECDHE_RSA_WITH_AES_128_GCM_SHA256 : Z := 0xc02f.
Definition TLS_ECDHE_ECDSA_WITH_AES_128_GCM_SHA256 : Z := 0xc02b.
Definition TLS_ECDHE_RSA_WITH_AES_256_GCM_SHA384 : Z := 0xc030.
Definition TLS_ECDHE_ECDSA_WITH_AES_256_GCM_SHA384 : Z := 0xc02c.
Definition TLS_ECDHE_RSA_WITH_CHACHA20_POLY1305 : Z := 0xcca8.
Definition TLS_ECDHE_ECDSA_WITH_CHACHA20_POLY1305 : Z := 0xcca9.

(** Protocol versions, [uint16]. *)
Definition VersionTLS12 : Z := 0x0303.

(** [tls.ClientAuthType]. *)
Inductive ClientAuthType : Type :=
| NoClientCert
| RequestClientCert
| RequireAnyClientCert
| VerifyClientCertIfGiven
| RequireAndVerifyClientCert.

End tls.

(** ** The static tables of [tls.go] *)

Definition defaultCurvePreferences : list tls.CurveID :=
  [ tls.CurveP256; tls.X25519 ].

Definition supportedCurvesMap : gmap string tls.CurveID :=
  list_to_map
    [ ("X25519", tls.X25519);
      ("P256", tls.CurveP256);
      ("P384", tls.CurveP384);
      ("P521", tls.CurveP521) ].

Definition defaultCipherSuites : list Z :=
  [ tls.TLS_ECDHE_ECDSA_WITH_AES_256_GCM_SHA384;
    tls.TLS_ECDHE_RSA_WITH_AES_256_GCM_SHA384;
    tls.TLS_ECDHE_ECDSA_WITH_CHACHA20_POLY1305;
    tls.TLS_ECDHE_RSA_WITH_CHACHA20_POLY1305;
    tls.TLS_ECDHE_ECDSA_WITH_AES_128_GCM_SHA256;
    tls.TLS_ECDHE_RSA_WITH_AES_128_GCM_SHA256 ].

Definition supportedCiphersMap : gmap string Z :=
  list_to_map
    [ ("ECDHE-ECDSA-AES256-GCM-SHA384",
         tls.TLS_ECDHE_ECDSA_WITH_AES_256_GCM_SHA384);
      ("ECDHE-RSA-AES256-GCM-SHA384",
         tls.TLS_ECDHE_RSA_WITH_AES_256_GCM_SHA384);
      ("ECDHE-ECDSA-AES128-GCM-SHA256",
         tls.TLS_ECDHE_ECDSA_WITH_AES_128_GCM_SHA256);
      ("ECDHE-RSA-AES128-GCM-SHA256",
         tls.TLS_ECDHE_RSA_WITH_AES_128_GCM_SHA256);
      ("ECDHE-ECDSA-WITH-CHACHA20-POLY1305",
         tls.TLS_ECDHE_ECDSA_WITH_CHACHA20_POLY1305);
      ("ECDHE-RSA-WITH-CHACHA20-POLY1305",
         tls.TLS_ECDHE_RSA_WITH_CHACHA20_POLY1305);
      ("ECDHE-RSA-AES256-CBC-SHA", tls.TLS_ECDHE_RSA_WITH_AES_256_CBC_SHA);
      ("ECDHE-RSA-AES128-CBC-SHA", tls.TLS_ECDHE_RSA_WITH_AES_128_CBC_SHA);
      ("ECDHE-ECDSA-AES256-CBC-SHA", tls.TLS_ECDHE_ECDSA_WITH_AES_256_CBC_SHA);
      ("ECDHE-ECDSA-AES128-CBC-SHA", tls.TLS_ECDHE_ECDSA_WITH_AES_128_CBC_SHA);
      ("RSA-AES256-CBC-SHA", tls.TLS_RSA_WITH_AES_256_CBC_SHA);
      ("RSA-AES128-CBC-SHA", tls.TLS_RSA_WITH_AES_128_CBC_SHA);
      ("ECDHE-RSA-3DES-EDE-CBC-SHA", tls.TLS_ECDHE_RSA_WITH_3DES_EDE_CBC_SHA);
      ("RSA-3DES-EDE-CBC-SHA", tls.TLS_RSA_WITH_3DES_EDE_CBC_SHA) ].

(** ** Name resolution *)

(** The [for ... range] loop shared in shape by both resolvers: [acc] is the
    slice built so far, [table] the map consulted, [mkErr] the [Errorf] of
    the failing branch (it receives the element as configured, untrimmed). *)
Fixpoint resolveLoop (table : gmap string Z) (mkErr : string -> error)
         (names : list string) (acc : list Z) : result (list Z) :=
  match names with
  | [] => Ok acc
  | name :: rest =>
      match table !! Strings.TrimSpace name with
      | None => Err (mkErr name)
      | Some id => resolveLoop table mkErr rest (acc ++ [id])%list
      end
  end.

Definition invalidCipherSuite (suite : string) : error :=
  errors_Errorf1 "invalid cipher suite '" suite "' selected".

Definition invalidCurveID (curveID : string) : error :=
  errors_Errorf1 "invalid curveID '" curveID "' selected".

Definition getCipherSuites (enabledCipherSuites : list string)
  : result (list Z) :=
  match resolveLoop supportedCiphersMap invalidCipherSuite
                    enabledCipherSuites [] with
  | Err e => Err e
  | Ok suites =>
      if (length suites =? 0)%nat then Ok defaultCipherSuites else Ok suites
  end.

Definition getCurvePreferences (enabledCurvePreferences : list string)
  : result (list tls.CurveID) :=
  match resolveLoop supportedCurvesMap invalidCurveID
                    enabledCurvePreferences [] with
  | Err e => Err e
  | Ok curvePreferences =>
      if (length curvePreferences =? 0)%nat
      then Ok defaultCurvePreferences else Ok curvePreferences
  end.

(** ** PEM blocks ([encoding/pem], [crypto/x509]) *)

Module pem.

(** [pem.Block]. *)
Record Block : Type := mkBlock {
  Type_ : string;
  Headers : gmap string string;
  Bytes : bytes
}.

End pem.

Module x509.

(** [x509.IsEncryptedPEMBlock]: the block carries a [DEK-Info] header. *)
Definition IsEncryptedPEMBlock (b : pem.Block) : bool :=
  match pem.Headers b !! "DEK-Info" with
  | Some _ => true
  | None => false
  end.

End x509.

(** ** The library and the file system the builders run against

    What [tls.go] calls but does not define: the parsers and the crypto of
    the Go standard library and the contents of the file system, which does
    not change during a call.  They are left open; every theorem below
    holds for all of them. *)

Record World : Type := mkWorld {
  (** [tls.Certificate] and [*x509.CertPool]. *)
  Certificate : Type;
  CertPool : Type;
  (** [ioutil.ReadFile] on the file system of the run. *)
  fileContents : string -> result bytes;
  (** [pem.Decode]: the first block and the rest, or no block. *)
  pem_Decode : bytes -> option (pem.Block * bytes);
  (** [pem.EncodeToMemory]. *)
  pem_EncodeToMemory : pem.Block -> bytes;
  (** [x509.DecryptPEMBlock]. *)
  x509_DecryptPEMBlock : pem.Block -> bytes -> result bytes;
  (** [tls.X509KeyPair]. *)
  tls_X509KeyPair : bytes -> bytes -> result Certificate;
  (** [x509.NewCertPool()] and [pool.AppendCertsFromPEM(data)], which
      returns the pool as updated and the [ok] flag. *)
  x509_NewCertPool : CertPool;
  AppendCertsFromPEM : CertPool -> bytes -> CertPool * bool;
  (** The name index computed by [cfg.BuildNameToCertificate()]. *)
  NameIndex : Type;
  nameIndexOf : list Certificate -> NameIndex
}.

(** ** Effects: file reads

    A computation receives the list of paths read so far and returns it
    extended, in order, with the paths it has read. *)

Definition IO (A : Type) : Type := list string -> A * list string.

Definition ret {A} (a : A) : IO A := fun t => (a, t).

Definition bind {A B} (m : IO A) (k : A -> IO B) : IO B :=
  fun t => let (a, t') := m t in k a t'.

Notation "'let!' x ':=' m 'in' k" := (bind m (fun x => k))
  (at level 10, x name, m at level 100, k at level 200).

(** [v, err := m; if err != nil { return nil, err }; k v]. *)
Definition try {A B} (m : IO (result A)) (k : A -> IO (result B))
  : IO (result B) :=
  let! r := m in
  match r with
  | Err e => ret (Err e)
  | Ok v => k v
  end.

Notation "'let?' x ':=' m 'in' k" := (try m (fun x => k))
  (at level 10, x name, m at level 100, k at level 200).

(** Runs a computation from the empty trace. *)
Definition run {A} (m : IO A) : A * list string := m [].

Definition ioutil_ReadFile (W : World) (path : string) : IO (result bytes) :=
  fun t => (fileContents W path, (t ++ [path])%list).

(** ** [decryptPEM] *)

Definition decryptPEM (W : World) (pemData : bytes) (password : string)
  : result bytes :=
  match pem_Decode W pemData with
  | None => Err (errors_New "Failed to parse PEM")
  | Some (keyBlock, _) =>
      if x509.IsEncryptedPEMBlock keyBlock then
        if String.eqb password "" then
          Err (errors_New "PEM is encrypted, but password is empty")
        else
          match x509_DecryptPEMBlock W keyBlock (bytes_of_string password) with
          | Err err => Err err
          | Ok key =>
              let block := pem.mkBlock "RSA PRIVATE KEY" ∅ key in
              Ok (pem_EncodeToMemory W block)
          end
      else Ok pemData
  end.

(** ** Configuration

    Modelled from the spec: the type declarations of package [config] are
    not among the sources; the records below hold the fields of
    [conf.Proxy.TLS] and [conf.Kafka.TLS] that [tls.go] reads, under the
    names it reads them by (section 6 of the specification lists the same
    settings).  [*config.Config] is taken non-nil. *)

Module config.

Record ProxyTLS : Type := mkProxyTLS {
  ListenerCertFile : string;
  ListenerKeyFile : string;
  ListenerKeyPassword : string;
  ProxyCAChainCertFile : string;
  ListenerCipherSuites : list string;
  ListenerCurvePreferences : list string
}.

Record KafkaTLS : Type := mkKafkaTLS {
  ClientCertFile : string;
  ClientKeyFile : string;
  ClientKeyPassword : string;
  KafkaCAChainCertFile : string;
  KafkaInsecureSkipVerify : bool
}.

Record Config : Type := mkConfig {
  Proxy_TLS : ProxyTLS;
  Kafka_TLS : KafkaTLS
}.

End config.

(** ** [tls.Config]: the fields [tls.go] sets; a field left out of a struct
    literal has Go's zero value ([nil], [0], [false], [NoClientCert]). *)

Record tlsConfig (W : World) : Type := mkTlsConfig {
  Certificates : list (Certificate W);
  NameToCertificate : option (NameIndex W);
  RootCAs : option (CertPool W);
  ClientCAs : option (CertPool W);
  ClientAuth : tls.ClientAuthType;
  InsecureSkipVerify : bool;
  CipherSuites : list Z;
  PreferServerCipherSuites : bool;
  MinVersion : Z;
  CurvePreferences : list tls.CurveID
}.
Arguments mkTlsConfig {W}.
Arguments Certificates {W}.
Arguments NameToCertificate {W}.
Arguments RootCAs {W}.
Arguments ClientCAs {W}.
Arguments ClientAuth {W}.
Arguments InsecureSkipVerify {W}.
Arguments CipherSuites {W}.
Arguments PreferServerCipherSuites {W}.
Arguments MinVersion {W}.
Arguments CurvePreferences {W}.

Definition nonEmpty (s : string) : bool := negb (String.eqb s "").

(** ** [newTLSListenerConfig] *)

Definition newTLSListenerConfig (W : World) (conf : config.Config)
  : IO (result (tlsConfig W)) :=
  let opts := config.Proxy_TLS conf in
  if String.eqb (config.ListenerKeyFile opts) ""
     || String.eqb (config.ListenerCertFile opts) ""
  then ret (Err (errors_New "Listener key and cert files must not be empty"))
  else
    let? certPEMBlock := ioutil_ReadFile W (config.ListenerCertFile opts) in
    let? keyPEMBlock := ioutil_ReadFile W (config.ListenerKeyFile opts) in
    let? keyPEMBlock := ret (decryptPEM W keyPEMBlock
                           (config.ListenerKeyPassword opts)) in
    let? cert := ret (tls_X509KeyPair W certPEMBlock keyPEMBlock) in
    let? cipherSuites :=
      ret (getCipherSuites (config.ListenerCipherSuites opts)) in
    let? curvePreferences :=
      ret (getCurvePreferences (config.ListenerCurvePreferences opts)) in
    let cfg :=
      {| Certificates := [cert];
         NameToCertificate := None;
         RootCAs := None;
         ClientCAs := None;
         ClientAuth := tls.NoClientCert;
         InsecureSkipVerify := false;
         CipherSuites := cipherSuites;
         PreferServerCipherSuites := true;
         MinVersion := tls.VersionTLS12;
         CurvePreferences := curvePreferences |} in
    if nonEmpty (config.ProxyCAChainCertFile opts) then
      let? caCertPEMBlock :=
        ioutil_ReadFile W (config.ProxyCAChainCertFile opts) in
      let (clientCAs, ok) :=
        AppendCertsFromPEM W (x509_NewCertPool W) caCertPEMBlock in
      if negb ok then
        ret (Err (errors_New "Failed to parse listener root certificate"))
      else
        ret (Ok {| Certificates := Certificates cfg;
                   NameToCertificate := NameToCertificate cfg;
                   RootCAs := RootCAs cfg;
                   ClientCAs := Some clientCAs;
                   ClientAuth := tls.RequireAndVerifyClientCert;
                   InsecureSkipVerify := InsecureSkipVerify cfg;
                   CipherSuites := CipherSuites cfg;
                   PreferServerCipherSuites := PreferServerCipherSuites cfg;
                   MinVersion := MinVersion cfg;
                   CurvePreferences := CurvePreferences cfg |})
    else ret (Ok cfg).

(** ** [newTLSClientConfig] *)

(** The first block of [newTLSClientConfig]: the client key pair. *)
Definition clientKeyPair (W : World) (opts : config.KafkaTLS)
           (cfg : tlsConfig W) : IO (result (tlsConfig W)) :=
  if nonEmpty (config.ClientCertFile opts)
     && nonEmpty (config.ClientKeyFile opts)
  then
    let? certPEMBlock := ioutil_ReadFile W (config.ClientCertFile opts) in
    let? keyPEMBlock := ioutil_ReadFile W (config.ClientKeyFile opts) in
    let? keyPEMBlock := ret (decryptPEM W keyPEMBlock
                           (config.ClientKeyPassword opts)) in
    let? cert := ret (tls_X509KeyPair W certPEMBlock keyPEMBlock) in
    ret (Ok {| Certificates := [cert];
               NameToCertificate := Some (nameIndexOf W [cert]);
               RootCAs := RootCAs cfg;
               ClientCAs := ClientCAs cfg;
               ClientAuth := ClientAuth cfg;
               InsecureSkipVerify := InsecureSkipVerify cfg;
               CipherSuites := CipherSuites cfg;
               PreferServerCipherSuites := PreferServerCipherSuites cfg;
               MinVersion := MinVersion cfg;
               CurvePreferences := CurvePreferences cfg |})
  else ret (Ok cfg).

(** The second block: the trust roots. *)
Definition clientRootCAs (W : World) (opts : config.KafkaTLS)
           (cfg : tlsConfig W) : IO (result (tlsConfig W)) :=
  if nonEmpty (config.KafkaCAChainCertFile opts) then
    let? caCertPEMBlock :=
      ioutil_ReadFile W (config.KafkaCAChainCertFile opts) in
    let (rootCAs, ok) :=
      AppendCertsFromPEM W (x509_NewCertPool W) caCertPEMBlock in
    if negb ok then
      ret (Err (errors_New "Failed to parse client root certificate"))
    else
      ret (Ok {| Certificates := Certificates cfg;
                 NameToCertificate := NameToCertificate cfg;
                 RootCAs := Some rootCAs;
                 ClientCAs := ClientCAs cfg;
                 ClientAuth := ClientAuth cfg;
                 InsecureSkipVerify := InsecureSkipVerify cfg;
                 CipherSuites := CipherSuites cfg;
                 PreferServerCipherSuites := PreferServerCipherSuites cfg;
                 MinVersion := MinVersion cfg;
                 CurvePreferences := CurvePreferences cfg |})
  else ret (Ok cfg).

Definition newTLSClientConfig (W : World) (conf : config.Config)
  : IO (result (tlsConfig W)) :=
  let opts := config.Kafka_TLS conf in
  let cfg :=
    {| Certificates := [];
       NameToCertificate := None;
       RootCAs := None;
       ClientCAs := None;
       ClientAuth := tls.NoClientCert;
       InsecureSkipVerify := config.KafkaInsecureSkipVerify opts;
       CipherSuites := [];
       PreferServerCipherSuites := false;
       MinVersion := 0;
       CurvePreferences := [] |} in
  let? cfg := clientKeyPair W opts cfg in
  clientRootCAs W opts cfg.

(** ** A small world to run the builders in

    Files whose name starts with [e] hold an encrypted block, the password
    is [secret], the path [missing.pem] cannot be read, and a file holds its
    own name. *)

Module Demo.

Definition files (path : string) : result bytes :=
  if String.eqb path "missing.pem"
  then Err (mkError "open missing.pem: no such file or directory")
  else Ok (bytes_of_string path).

Definition Decode (data : bytes) : option (pem.Block * bytes) :=
  match string_of_list_byte data with
  | EmptyString => None
  | String c _ =>
      Some (pem.mkBlock "EC PRIVATE KEY"
              (if Ascii.eqb c "e"
               then {[ "DEK-Info" := "AES-128-CBC,0011" ]} else ∅)
              data, [])
  end.

Definition EncodeToMemory (b : pem.Block) : bytes :=
  (bytes_of_string (pem.Type_ b) ++ pem.Bytes b)%list.

Definition DecryptPEMBlock (b : pem.Block) (password : bytes)
  : result bytes :=
  if String.eqb (string_of_list_byte password) "secret"
  then Ok (pem.Bytes b)
  else Err (mkError "x509: decryption password incorrect").

Definition world : World :=
  {| Certificate := bytes * bytes;
     CertPool := list bytes;
     fileContents := files;
     pem_Decode := Decode;
     pem_EncodeToMemory := EncodeToMemory;
     x509_DecryptPEMBlock := DecryptPEMBlock;
     tls_X509KeyPair := fun c k => Ok (c, k);
     x509_NewCertPool := [];
     AppendCertsFromPEM := fun pool data => ((pool ++ [data])%list, true);
     NameIndex := nat;
     nameIndexOf := fun certs => length certs |}.

Definition listener (cert key password ca : string)
           (suites curves : list string) : config.Config :=
  config.mkConfig
    (config.mkProxyTLS cert key password ca suites curves)
    (config.mkKafkaTLS "" "" "" "" false).

Definition client (cert key password ca : string) (skip : bool)
  : config.Config :=
  config.mkConfig
    (config.mkProxyTLS "" "" "" "" [] [])
    (config.mkKafkaTLS cert key password ca skip).

End Demo.

(** ** Vocabulary of the statements *)

(** [name] resolves to [id] in [table] (after trimming). *)
Definition resolvesTo (table : gmap string Z) (name : string) (id : Z)
  : Prop :=
  table !! Strings.TrimSpace name = Some id.

(** [name] is, after trimming, a key of [table]. *)
Definition recognized (table : gmap string Z) (name : string) : Prop :=
  is_Some (table !! Strings.TrimSpace name).

(** The first six names of the specification's list of recognized
    cipher-suite names, in the order the specification gives them. *)
Definition spec_topSixNames : list string :=
  [ "ECDHE-ECDSA-AES256-GCM-SHA384";
    "ECDHE-RSA-AES256-GCM-SHA384";
    "ECDHE-ECDSA-AES128-GCM-SHA256";
    "ECDHE-RSA-AES128-GCM-SHA256";
    "ECDHE-ECDSA-WITH-CHACHA20-POLY1305";
    "ECDHE-RSA-WITH-CHACHA20-POLY1305" ].

(** Their identifiers, through the table. *)
Definition spec_topSixSuites : list Z :=
  omap (fun name => supportedCiphersMap !! name) spec_topSixNames.

(** The three ways [decryptPEM] fails. *)
Inductive DecryptFailure (W : World) (pemData : bytes) (password : string)
  : error -> Prop :=
| MalformedPEM :
    pem_Decode W pemData = None ->
    DecryptFailure W pemData password (errors_New "Failed to parse PEM")
| EncryptedWithoutPassword keyBlock rest :
    pem_Decode W pemData = Some (keyBlock, rest) ->
    x509.IsEncryptedPEMBlock keyBlock = true ->
    password = "" ->
    DecryptFailure W pemData password
      (errors_New "PEM is encrypted, but password is empty")
| DecryptionFailed keyBlock rest err :
    pem_Decode W pemData = Some (keyBlock, rest) ->
    x509.IsEncryptedPEMBlock keyBlock = true ->
    password <> "" ->
    x509_DecryptPEMBlock W keyBlock (bytes_of_string password) = Err err ->
    DecryptFailure W pemData password err.

(** The cases in which, by the specification, [decryptPEM] fails: no
    parseable block; an encrypted first block and an empty password; an
    encrypted first block, a password, and a decryption that fails. *)
Definition decryptErrorCase (W : World) (pemData : bytes)
           (password : string) : Prop :=
  pem_Decode W pemData = None
  \/ (exists keyBlock rest,
         pem_Decode W pemData = Some (keyBlock, rest)
         /\ x509.IsEncryptedPEMBlock keyBlock = true
         /\ password = "")
  \/ (exists keyBlock rest,
         pem_Decode W pemData = Some (keyBlock, rest)
         /\ x509.IsEncryptedPEMBlock keyBlock = true
         /\ password <> ""
         /\ isOk (x509_DecryptPEMBlock W keyBlock
                    (bytes_of_string password)) = false).

(** Unfolds the monad and splits on every test of a builder. *)
Ltac io_unfold :=
  unfold try, bind, ret, ioutil_ReadFile in *.

(** The body shared by [getCipherSuites] and [getCurvePreferences]: the
    loop, then the default list in place of an empty result. *)
Definition resolveOrDefault (table : gmap string Z)
           (mkErr : string -> error) (dflt : list Z) (names : list string)
  : result (list Z) :=
  match resolveLoop table mkErr names [] with
  | Err e => Err e
  | Ok ids => if (length ids =? 0)%nat then Ok dflt else Ok ids
  end.

(** The paths a builder is configured with, in the order it reads them; an
    empty CA-chain path is not read. *)
Definition listenerPaths (opts : config.ProxyTLS) : list string :=
  ([config.ListenerCertFile opts; config.ListenerKeyFile opts]
   ++ if nonEmpty (config.ProxyCAChainCertFile opts)
      then [config.ProxyCAChainCertFile opts] else [])%list.

Definition clientPaths (opts : config.KafkaTLS) : list string :=
  ((if nonEmpty (config.ClientCertFile opts)
       && nonEmpty (config.ClientKeyFile opts)
    then [config.ClientCertFile opts; config.ClientKeyFile opts] else [])
   ++ if nonEmpty (config.KafkaCAChainCertFile opts)
      then [config.KafkaCAChainCertFile opts] else [])%list.

(** A world in which a PEM block is one byte long and always encrypted;
    the rest of the input follows it. *)
Module ByteBlocks.

Definition Decode (data : bytes) : option (pem.Block * bytes) :=
  match data with
  | [] => None
  | b :: rest =>
      Some (pem.mkBlock "ENCRYPTED PRIVATE KEY"
              {[ "DEK-Info" := "DES-EDE3-CBC,00" ]} [b], rest)
  end.

Definition world : World :=
  {| Certificate := bytes * bytes;
     CertPool := list bytes;
     fileContents := Demo.files;
     pem_Decode := Decode;
     pem_EncodeToMemory := Demo.EncodeToMemory;
     x509_DecryptPEMBlock := Demo.DecryptPEMBlock;
     tls_X509KeyPair := fun c k => Ok (c, k);
     x509_NewCertPool := [];
     AppendCertsFromPEM := fun pool data => ((pool ++ [data])%list, true);
     NameIndex := nat;
     nameIndexOf := fun certs => length certs |}.

End ByteBlocks.

(** Everything a successful run of [newTLSListenerConfig] has gone through,
    and the config it returns. *)
Definition listenerBuilt (W : World) (opts : config.ProxyTLS)
           (t : list string) (cfg : tlsConfig W) (t' : list string) : Prop :=
  config.ListenerKeyFile opts <> "" /\ config.ListenerCertFile opts <> ""
  /\ t' = (t ++ listenerPaths opts)%list
  /\ exists certPEMBlock keyPEMBlock keyPEMBlock' cert,
      fileContents W (config.ListenerCertFile opts) = Ok certPEMBlock
      /\ fileContents W (config.ListenerKeyFile opts) = Ok keyPEMBlock
      /\ decryptPEM W keyPEMBlock (config.ListenerKeyPassword opts)
         = Ok keyPEMBlock'
      /\ tls_X509KeyPair W certPEMBlock keyPEMBlock' = Ok cert
      /\ getCipherSuites (config.ListenerCipherSuites opts)
         = Ok (CipherSuites cfg)
      /\ getCurvePreferences (config.ListenerCurvePreferences opts)
         = Ok (CurvePreferences cfg)
      /\ Certificates cfg = [cert]
      /\ NameToCertificate cfg = None
      /\ RootCAs cfg = None
      /\ InsecureSkipVerify cfg = false
      /\ PreferServerCipherSuites cfg = true
      /\ MinVersion cfg = tls.VersionTLS12
      /\ ((config.ProxyCAChainCertFile opts = ""
           /\ ClientCAs cfg = None /\ ClientAuth cfg = tls.NoClientCert)
          \/ (config.ProxyCAChainCertFile opts <> ""
              /\ exists data pool,
                  fileContents W (config.ProxyCAChainCertFile opts) = Ok data
                  /\ AppendCertsFromPEM W (x509_NewCertPool W) data
                     = (pool, true)
                  /\ ClientCAs cfg = Some pool
                  /\ ClientAuth cfg = tls.RequireAndVerifyClientCert)).

(** Everything a successful run of [newTLSClientConfig] has gone through,
    and the config it returns. *)
Definition clientBuilt (W : World) (opts : config.KafkaTLS)
           (t : list string) (cfg : tlsConfig W) (t' : list string) : Prop :=
  t' = (t ++ clientPaths opts)%list
  /\ InsecureSkipVerify cfg = config.KafkaInsecureSkipVerify opts
  /\ ClientCAs cfg = None
  /\ ClientAuth cfg = tls.NoClientCert
  /\ CipherSuites cfg = []
  /\ PreferServerCipherSuites cfg = false
  /\ MinVersion cfg = 0
  /\ CurvePreferences cfg = []
  /\ ((config.ClientCertFile opts <> "" /\ config.ClientKeyFile opts <> ""
       /\ exists certPEMBlock keyPEMBlock keyPEMBlock' cert,
           fileContents W (config.ClientCertFile opts) = Ok certPEMBlock
           /\ fileContents W (config.ClientKeyFile opts) = Ok keyPEMBlock
           /\ decryptPEM W keyPEMBlock (config.ClientKeyPassword opts)
              = Ok keyPEMBlock'
           /\ tls_X509KeyPair W certPEMBlock keyPEMBlock' = Ok cert
           /\ Certificates cfg = [cert]
           /\ NameToCertificate cfg = Some (nameIndexOf W [cert]))
      \/ (~ (config.ClientCertFile opts <> ""
             /\ config.ClientKeyFile opts <> "")
          /\ Certificates cfg = [] /\ NameToCertificate cfg = None))
  /\ ((config.KafkaCAChainCertFile opts = "" /\ RootCAs cfg = None)
      \/ (config.KafkaCAChainCertFile opts <> ""
          /\ exists data pool,
              fileContents W (config.KafkaCAChainCertFile opts) = Ok data
              /\ AppendCertsFromPEM W (x509_NewCertPool W) data
                 = (pool, true)
              /\ RootCAs cfg = Some pool)).

(** The CA chain at [path] is configured but cannot be used: the file is
    not read, or [AppendCertsFromPEM] finds no certificate in it. *)
Definition unusableCAChain (W : World) (path : string) : Prop :=
  path <> ""
  /\ (isOk (fileContents W path) = false
      \/ exists data,
          fileContents W path = Ok data
          /\ snd (AppendCertsFromPEM W (x509_NewCertPool W) data) = false).

(** Modelled from the spec: the default of the skip-verify flag is set in
    package [config], which is not among the sources; section 6 of the
    specification gives "skip-verify flag (boolean, default false)". *)
Definition defaultInsecureSkipVerify : bool := false.

(** The configuration with the skip-verify flag of [conf.Kafka.TLS] set to
    [b] and everything else as in [conf]. *)
Definition setSkipVerifyFlag (b : bool) (conf : config.Config)
  : config.Config :=
  let opts := config.Kafka_TLS conf in
  config.mkConfig (config.Proxy_TLS conf)
    (config.mkKafkaTLS (config.ClientCertFile opts)
       (config.ClientKeyFile opts) (config.ClientKeyPassword opts)
       (config.KafkaCAChainCertFile opts) b).

(** The config [cfg] with [InsecureSkipVerify] replaced by [b]. *)
Definition withInsecureSkipVerify {W : World} (b : bool) (cfg : tlsConfig W)
  : tlsConfig W :=
  {| Certificates := Certificates cfg;
     NameToCertificate := NameToCertificate cfg;
     RootCAs := RootCAs cfg;
     ClientCAs := ClientCAs cfg;
     ClientAuth := ClientAuth cfg;
     InsecureSkipVerify := b;
     CipherSuites := CipherSuites cfg;
     PreferServerCipherSuites := PreferServerCipherSuites cfg;
     MinVersion := MinVersion cfg;
     CurvePreferences := CurvePreferences cfg |}.

(** The steps of [newTLSListenerConfig] between the key read and the CA
    chain, on the certificate bytes [c] and the key bytes [k]: decrypt,
    pair, resolve the suites, resolve the curves.  [listenerMaterialError]
    holds of the error of the first step that fails. *)
Definition listenerMaterialError (W : World) (opts : config.ProxyTLS)
           (c k : bytes) (e : error) : Prop :=
  decryptPEM W k (config.ListenerKeyPassword opts) = Err e
  \/ exists k',
      decryptPEM W k (config.ListenerKeyPassword opts) = Ok k'
      /\ (tls_X509KeyPair W c k' = Err e
          \/ exists cert,
              tls_X509KeyPair W c k' = Ok cert
              /\ (getCipherSuites (config.ListenerCipherSuites opts) = Err e
                  \/ exists suites,
                      getCipherSuites (config.ListenerCipherSuites opts)
                      = Ok suites
                      /\ getCurvePreferences
                           (config.ListenerCurvePreferences opts) = Err e)).

Definition listenerMaterialOk (W : World) (opts : config.ProxyTLS)
           (c k : bytes) : Prop :=
  exists k' cert suites curves,
    decryptPEM W k (config.ListenerKeyPassword opts) = Ok k'
    /\ tls_X509KeyPair W c k' = Ok cert
    /\ getCipherSuites (config.ListenerCipherSuites opts) = Ok suites
    /\ getCurvePreferences (config.ListenerCurvePreferences opts) = Ok curves.

(** How [newTLSListenerConfig] fails: the step that fails first, the error
    it returns, and the files it has read by then. *)
Inductive ListenerFailure (W : World) (opts : config.ProxyTLS)
  : error -> list string -> Prop :=
| ListenerPathEmpty :
    config.ListenerKeyFile opts = "" \/ config.ListenerCertFile opts = "" ->
    ListenerFailure W opts
      (errors_New "Listener key and cert files must not be empty") []
| ListenerCertUnread e :
    config.ListenerKeyFile opts <> "" -> config.ListenerCertFile opts <> "" ->
    fileContents W (config.ListenerCertFile opts) = Err e ->
    ListenerFailure W opts e [config.ListenerCertFile opts]
| ListenerKeyUnread c e :
    config.ListenerKeyFile opts <> "" -> config.ListenerCertFile opts <> "" ->
    fileContents W (config.ListenerCertFile opts) = Ok c ->
    fileContents W (config.ListenerKeyFile opts) = Err e ->
    ListenerFailure W opts e
      [config.ListenerCertFile opts; config.ListenerKeyFile opts]
| ListenerMaterialBad c k e :
    config.ListenerKeyFile opts <> "" -> config.ListenerCertFile opts <> "" ->
    fileContents W (config.ListenerCertFile opts) = Ok c ->
    fileContents W (config.ListenerKeyFile opts) = Ok k ->
    listenerMaterialError W opts c k e ->
    ListenerFailure W opts e
      [config.ListenerCertFile opts; config.ListenerKeyFile opts]
| ListenerCAUnread c k e :
    config.ListenerKeyFile opts <> "" -> config.ListenerCertFile opts <> "" ->
    fileContents W (config.ListenerCertFile opts) = Ok c ->
    fileContents W (config.ListenerKeyFile opts) = Ok k ->
    listenerMaterialOk W opts c k ->
    config.ProxyCAChainCertFile opts <> "" ->
    fileContents W (config.ProxyCAChainCertFile opts) = Err e ->
    ListenerFailure W opts e
      [config.ListenerCertFile opts; config.ListenerKeyFile opts;
       config.ProxyCAChainCertFile opts]
| ListenerCAUnparsed c k data pool :
    config.ListenerKeyFile opts <> "" -> config.ListenerCertFile opts <> "" ->
    fileContents W (config.ListenerCertFile opts) = Ok c ->
    fileContents W (config.ListenerKeyFile opts) = Ok k ->
    listenerMaterialOk W opts c k ->
    config.ProxyCAChainCertFile opts <> "" ->
    fileContents W (config.ProxyCAChainCertFile opts) = Ok data ->
    AppendCertsFromPEM W (x509_NewCertPool W) data = (pool, false) ->
    ListenerFailure W opts
      (errors_New "Failed to parse listener root certificate")
      [config.ListenerCertFile opts; config.ListenerKeyFile opts;
       config.ProxyCAChainCertFile opts].

(** The key-pair block of [newTLSClientConfig] has gone through: both
    paths are set and the pair is loaded, or the block is skipped. *)
Definition clientPairOk (W : World) (opts : config.KafkaTLS) : Prop :=
  (config.ClientCertFile opts <> "" /\ config.ClientKeyFile opts <> ""
   /\ exists c k k' cert,
       fileContents W (config.ClientCertFile opts) = Ok c
       /\ fileContents W (config.ClientKeyFile opts) = Ok k
       /\ decryptPEM W k (config.ClientKeyPassword opts) = Ok k'
       /\ tls_X509KeyPair W c k' = Ok cert)
  \/ ~ (config.ClientCertFile opts <> "" /\ config.ClientKeyFile opts <> "").

(** How [newTLSClientConfig] fails: the step that fails first, the error
    it returns, and the files it has read by then. *)
Inductive ClientFailure (W : World) (opts : config.KafkaTLS)
  : error -> list string -> Prop :=
| ClientCertUnread e :
    config.ClientCertFile opts <> "" -> config.ClientKeyFile opts <> "" ->
    fileContents W (config.ClientCertFile opts) = Err e ->
    ClientFailure W opts e [config.ClientCertFile opts]
| ClientKeyUnread c e :
    config.ClientCertFile opts <> "" -> config.ClientKeyFile opts <> "" ->
    fileContents W (config.ClientCertFile opts) = Ok c ->
    fileContents W (config.ClientKeyFile opts) = Err e ->
    ClientFailure W opts e
      [config.ClientCertFile opts; config.ClientKeyFile opts]
| ClientMaterialBad c k e :
    config.ClientCertFile opts <> "" -> config.ClientKeyFile opts <> "" ->
    fileContents W (config.ClientCertFile opts) = Ok c ->
    fileContents W (config.ClientKeyFile opts) = Ok k ->
    decryptPEM W k (config.ClientKeyPassword opts) = Err e
    \/ (exists k',
           decryptPEM W k (config.ClientKeyPassword opts) = Ok k'
           /\ tls_X509KeyPair W c k' = Err e) ->
    ClientFailure W opts e
      [config.ClientCertFile opts; config.ClientKeyFile opts]
| ClientCAUnread e :
    clientPairOk W opts ->
    config.KafkaCAChainCertFile opts <> "" ->
    fileContents W (config.KafkaCAChainCertFile opts) = Err e ->
    ClientFailure W opts e (clientPaths opts)
| ClientCAUnparsed data pool :
    clientPairOk W opts ->
    config.KafkaCAChainCertFile opts <> "" ->
    fileContents W (config.KafkaCAChainCertFile opts) = Ok data ->
    AppendCertsFromPEM W (x509_NewCertPool W) data = (pool, false) ->
    ClientFailure W opts
      (errors_New "Failed to parse client root certificate")
      (clientPaths opts).

(** * Properties *)

(** ** The model at work *)

Example getCipherSuites_trim :
  getCipherSuites [" ECDHE-RSA-AES128-CBC-SHA  "; "RSA-AES128-CBC-SHA"]
  = Ok [0xc013; 0x002f].
Proof. vm_compute. reflexivity. Qed.

Example getCipherSuites_bad :
  getCipherSuites ["RSA-AES128-CBC-SHA"; " nope"; "zzz"]
  = Err (mkError "invalid cipher suite ' nope' selected").
Proof. vm_compute. reflexivity. Qed.

Example getCurvePreferences_empty :
  getCurvePreferences [] = Ok [23; 29].
Proof. vm_compute. reflexivity. Qed.

Example TrimSpace_unicode :
  Strings.TrimSpace
    (String (ascii_of_N 0xC2) (String (ascii_of_N 0xA0)
       (String (ascii_of_N 9) ("P256" +:+
          String (ascii_of_N 0xE3) (String (ascii_of_N 0x80)
             (String (ascii_of_N 0x80) " "))))))
  = "P256".
Proof. vm_compute. reflexivity. Qed.

Example listener_runs :
  fst (run (newTLSListenerConfig Demo.world
         (Demo.listener "server.pem" "enc.key" "secret" "ca.pem" [] ["P384"])))
  = Ok (@mkTlsConfig Demo.world
          [(bytes_of_string "server.pem",
            bytes_of_string "RSA PRIVATE KEYenc.key")]
          None None (Some [bytes_of_string "ca.pem"])
          tls.RequireAndVerifyClientCert false
          defaultCipherSuites true 0x0303 [24]).
Proof. vm_compute. reflexivity. Qed.

Example listener_reads :
  snd (run (newTLSListenerConfig Demo.world
         (Demo.listener "server.pem" "enc.key" "secret" "ca.pem" [] ["P384"])))
  = ["server.pem"; "enc.key"; "ca.pem"].
Proof. vm_compute. reflexivity. Qed.

Example listener_wrong_password :
  fst (run (newTLSListenerConfig Demo.world
         (Demo.listener "server.pem" "enc.key" "guess" "" [] [])))
  = Err (mkError "x509: decryption password incorrect").
Proof. vm_compute. reflexivity. Qed.

(** ** [strings.TrimSpace] stops: nothing is left to trim *)

Section TrimFuel.

Variable width : list ascii -> nat.
Hypothesis width_nil : width [] = 0%nat.

Lemma trimWith_stable (fuel : nat) (l : list ascii) :
  (length l <= fuel)%nat -> width (Strings.trimWith width fuel l) = 0%nat.
Proof.
  revert l. induction fuel as [|fuel IH]; intros l Hlen; simpl.
  - destruct l; [exact width_nil | simpl in Hlen; lia].
  - destruct (width l) as [|w] eqn:Hw; [exact Hw|].
    apply IH. destruct l as [|c l]; [congruence|].
    simpl in *. rewrite length_drop. lia.
Qed.

End TrimFuel.

Lemma TrimSpace_no_leading_space_left (l : list ascii) :
  Strings.leadingSpace
    (Strings.trimWith Strings.leadingSpace (length l) l) = 0%nat.
Proof. apply trimWith_stable; [reflexivity | lia]. Qed.

Lemma TrimSpace_no_trailing_space_left (l : list ascii) :
  Strings.trailingSpace
    (Strings.trimWith Strings.trailingSpace (length l) l) = 0%nat.
Proof. apply trimWith_stable; [reflexivity | lia]. Qed.

(** ** The resolver loop *)

Section Resolve.

Variable table : gmap string Z.
Variable mkErr : string -> error.

Lemma resolveLoop_all (names : list string) (ids acc : list Z) :
  Forall2 (resolvesTo table) names ids ->
  resolveLoop table mkErr names acc = Ok (acc ++ ids)%list.
Proof.
  intros H. revert acc.
  induction H as [|name id names ids Hid _ IH]; intros acc; simpl.
  - by rewrite app_nil_r.
  - unfold resolvesTo in Hid. rewrite Hid, IH, <- app_assoc. done.
Qed.

Lemma recognized_resolves (names : list string) :
  Forall (recognized table) names ->
  exists ids, Forall2 (resolvesTo table) names ids.
Proof.
  induction 1 as [|name names [id Hid] _ [ids IH]].
  - exists []. constructor.
  - exists (id :: ids). by constructor.
Qed.

Lemma resolveLoop_first_bad (pre post : list string) (bad : string)
      (acc : list Z) :
  Forall (recognized table) pre -> ~ recognized table bad ->
  resolveLoop table mkErr (pre ++ bad :: post) acc = Err (mkErr bad).
Proof.
  intros Hpre Hbad. revert acc.
  induction Hpre as [|name pre [id Hid] _ IH]; intros acc; simpl.
  - destruct (table !! Strings.TrimSpace bad) eqn:E; [|done].
    exfalso. apply Hbad. by eexists.
  - rewrite Hid. apply IH.
Qed.

(** A list with an unrecognized element splits at the first one. *)
Lemma first_unrecognized (names : list string) :
  Exists (fun n => ~ recognized table n) names ->
  exists pre bad post,
    names = (pre ++ bad :: post)%list
    /\ Forall (recognized table) pre /\ ~ recognized table bad.
Proof.
  induction names as [|name names IH]; intros HE.
  - inversion HE.
  - destruct (decide (recognized table name)) as [Hn|Hn].
    + inversion HE as [? ? Hbad|? ? Hrest]; subst; [done|].
      destruct (IH Hrest) as (pre & bad & post & -> & Hpre & Hbad).
      exists (name :: pre), bad, post. split; [done|].
      split; [by constructor | done].
    + exists [], name, names. split; [done|]. split; [constructor | done].
Qed.

End Resolve.

Lemma Errorf1_contains (pre arg post : string) :
  contains (Error (errors_Errorf1 pre arg post)) arg.
Proof. exists pre, post. reflexivity. Qed.

(** The rule applied after the loop: an empty result is replaced by the
    default list. *)
Lemma Forall2_nonempty_length {A B} (R : A -> B -> Prop) (l : list A)
      (k : list B) :
  Forall2 R l k -> l <> [] -> (length k =? 0)%nat = false.
Proof. destruct 1; [done | intros _; reflexivity]. Qed.

(** ** Name lists (claims C2 and C3) *)

Lemma getCipherSuites_resolved (names : list string) (ids : list Z) :
  names <> [] -> Forall2 (resolvesTo supportedCiphersMap) names ids ->
  getCipherSuites names = Ok ids.
Proof.
  intros Hne H. unfold getCipherSuites.
  rewrite (resolveLoop_all _ _ _ _ _ H). simpl.
  by rewrite (Forall2_nonempty_length _ _ _ H Hne).
Qed.

Lemma getCurvePreferences_resolved (names : list string) (ids : list Z) :
  names <> [] -> Forall2 (resolvesTo supportedCurvesMap) names ids ->
  getCurvePreferences names = Ok ids.
Proof.
  intros Hne H. unfold getCurvePreferences.
  rewrite (resolveLoop_all _ _ _ _ _ H). simpl.
  by rewrite (Forall2_nonempty_length _ _ _ H Hne).
Qed.

Lemma getCipherSuites_unrecognized (pre post : list string) (bad : string) :
  Forall (recognized supportedCiphersMap) pre ->
  ~ recognized supportedCiphersMap bad ->
  getCipherSuites (pre ++ bad :: post) = Err (invalidCipherSuite bad).
Proof.
  intros Hpre Hbad. unfold getCipherSuites.
  by rewrite resolveLoop_first_bad.
Qed.

Lemma getCurvePreferences_unrecognized (pre post : list string)
      (bad : string) :
  Forall (recognized supportedCurvesMap) pre ->
  ~ recognized supportedCurvesMap bad ->
  getCurvePreferences (pre ++ bad :: post) = Err (invalidCurveID bad).
Proof.
  intros Hpre Hbad. unfold getCurvePreferences.
  by rewrite resolveLoop_first_bad.
Qed.

(** C2, as stated, at the empty list: every name of the empty list is
    recognized, yet the resolvers return the default lists, of lengths 6 and
    2, not a list of the length of the input. *)
Lemma C2_empty_list_counterexample :
  Forall (recognized supportedCiphersMap) []
  /\ Forall (recognized supportedCurvesMap) []
  /\ ~ (exists ids, getCipherSuites [] = Ok ids
                    /\ length ids = length (@nil string))
  /\ ~ (exists ids, getCurvePreferences [] = Ok ids
                    /\ length ids = length (@nil string)).
Proof.
  split; [constructor|]. split; [constructor|].
  split; intros (ids & Hids & Hlen); vm_compute in Hids;
    injection Hids as <-; discriminate Hlen.
Qed.

(** C2 (amended): for every non-empty configured name list all of whose
    names are, after trimming, recognized cipher-suite (resp. curve) names,
    [getCipherSuites] (resp. [getCurvePreferences]) succeeds, and the list
    returned has the length and the order of the input: its i-th element is
    the identifier the table maps the i-th (trimmed) name to.  For every
    list with an unrecognized element the call fails, and the error message
    is built from, and so contains, the offending element exactly as
    configured (the first unrecognized one). *)
Theorem C2_names_resolve_in_order (names : list string) :
  (names <> [] -> Forall (recognized supportedCiphersMap) names ->
   exists ids, getCipherSuites names = Ok ids
     /\ Forall2 (resolvesTo supportedCiphersMap) names ids
     /\ length ids = length names)
  /\ (names <> [] -> Forall (recognized supportedCurvesMap) names ->
      exists ids, getCurvePreferences names = Ok ids
        /\ Forall2 (resolvesTo supportedCurvesMap) names ids
        /\ length ids = length names)
  /\ (Exists (fun n => ~ recognized supportedCiphersMap n) names ->
      exists pre bad post e,
        names = (pre ++ bad :: post)%list
        /\ Forall (recognized supportedCiphersMap) pre
        /\ ~ recognized supportedCiphersMap bad
        /\ getCipherSuites names = Err e
        /\ Error e = "invalid cipher suite '" +:+ bad +:+ "' selected"
        /\ contains (Error e) bad)
  /\ (Exists (fun n => ~ recognized supportedCurvesMap n) names ->
      exists pre bad post e,
        names = (pre ++ bad :: post)%list
        /\ Forall (recognized supportedCurvesMap) pre
        /\ ~ recognized supportedCurvesMap bad
        /\ getCurvePreferences names = Err e
        /\ Error e = "invalid curveID '" +:+ bad +:+ "' selected"
        /\ contains (Error e) bad).
Proof.
  repeat split.
  - intros Hne Hall.
    destruct (recognized_resolves _ _ Hall) as [ids Hids]. exists ids.
    split; [by apply getCipherSuites_resolved|]. split; [done|].
    symmetry. by eapply Forall2_length.
  - intros Hne Hall.
    destruct (recognized_resolves _ _ Hall) as [ids Hids]. exists ids.
    split; [by apply getCurvePreferences_resolved|]. split; [done|].
    symmetry. by eapply Forall2_length.
  - intros HE.
    destruct (first_unrecognized _ _ HE)
      as (pre & bad & post & -> & Hpre & Hbad).
    exists pre, bad, post, (invalidCipherSuite bad).
    split; [done|]. split; [done|]. split; [done|].
    split; [by apply getCipherSuites_unrecognized|].
    split; [done | apply Errorf1_contains].
  - intros HE.
    destruct (first_unrecognized _ _ HE)
      as (pre & bad & post & -> & Hpre & Hbad).
    exists pre, bad, post, (invalidCurveID bad).
    split; [done|]. split; [done|]. split; [done|].
    split; [by apply getCurvePreferences_unrecognized|].
    split; [done | apply Errorf1_contains].
Qed.

Lemma C2_names_resolve_in_order_witness :
  (exists ids,
      getCipherSuites ["RSA-AES128-CBC-SHA "; " ECDHE-RSA-AES128-GCM-SHA256"]
      = Ok ids /\ length ids = 2%nat)
  /\ (exists pre bad post e,
         ["P384"; "p256"; "X25519"] = (pre ++ bad :: post)%list
         /\ getCurvePreferences ["P384"; "p256"; "X25519"] = Err e
         /\ contains (Error e) bad).
Proof.
  split.
  - destruct (C2_names_resolve_in_order
                ["RSA-AES128-CBC-SHA "; " ECDHE-RSA-AES128-GCM-SHA256"])
      as (H & _).
    destruct H as (ids & Hids & _ & Hlen).
    + discriminate.
    + repeat constructor; vm_compute; eexists; reflexivity.
    + exists ids. split; [exact Hids | exact Hlen].
  - destruct (C2_names_resolve_in_order ["P384"; "p256"; "X25519"])
      as (_ & _ & _ & H).
    destruct H as (pre & bad & post & e & Hsplit & _ & _ & Hres & _ & Hc).
    + apply Exists_cons_tl, Exists_cons_hd.
      intros [id Hid]. vm_compute in Hid. discriminate Hid.
    + exists pre, bad, post, e.
      split; [exact Hsplit|]. split; [exact Hres | exact Hc].
Defined.

(** C3, as stated: the default list is not the first six recognized names
    in the order of the specification's list; the list returned for the
    empty input has the two CHACHA20 suites before the two AES-128-GCM
    suites. *)
Lemma C3_default_order_counterexample :
  spec_topSixSuites = [0xc02c; 0xc030; 0xc02b; 0xc02f; 0xcca9; 0xcca8]
  /\ getCipherSuites [] = Ok [0xc02c; 0xc030; 0xcca9; 0xcca8; 0xc02b; 0xc02f]
  /\ getCipherSuites [] <> Ok spec_topSixSuites.
Proof.
  split; [vm_compute; reflexivity|]. split; [vm_compute; reflexivity|].
  vm_compute. intros H. discriminate H.
Qed.

(** C3 (amended): [getCipherSuites] applied to the empty list returns
    exactly the fixed default list of 6 cipher suites,
    [defaultCipherSuites]; it holds the six ECDHE/AEAD entries at the top of
    the recognized-name list, each once, in the order of the source table
    (AES-256-GCM, CHACHA20-POLY1305, AES-128-GCM; ECDSA before RSA), which
    is a rearrangement of the order in which the specification lists them.
    [getCurvePreferences] applied to the empty list returns exactly
    [P256; X25519]. *)
Theorem C3_empty_lists_give_defaults :
  getCipherSuites [] = Ok defaultCipherSuites
  /\ length defaultCipherSuites = 6%nat
  /\ NoDup defaultCipherSuites
  /\ defaultCipherSuites ≡ₚ spec_topSixSuites
  /\ defaultCipherSuites
     = [ tls.TLS_ECDHE_ECDSA_WITH_AES_256_GCM_SHA384;
         tls.TLS_ECDHE_RSA_WITH_AES_256_GCM_SHA384;
         tls.TLS_ECDHE_ECDSA_WITH_CHACHA20_POLY1305;
         tls.TLS_ECDHE_RSA_WITH_CHACHA20_POLY1305;
         tls.TLS_ECDHE_ECDSA_WITH_AES_128_GCM_SHA256;
         tls.TLS_ECDHE_RSA_WITH_AES_128_GCM_SHA256 ]
  /\ getCurvePreferences [] = Ok [tls.CurveP256; tls.X25519].
Proof.
  split; [reflexivity|]. split; [reflexivity|].
  split; [apply (bool_decide_unpack (NoDup defaultCipherSuites));
          vm_compute; exact I|].
  split; [|split; reflexivity].
  replace spec_topSixSuites
    with [0xc02c; 0xc030; 0xc02b; 0xc02f; 0xcca9; 0xcca8]
    by (vm_compute; reflexivity).
  unfold defaultCipherSuites.
  do 2 apply perm_skip.
  change [0xc02b; 0xc02f; 0xcca9; 0xcca8]
    with ([0xc02b; 0xc02f] ++ [0xcca9; 0xcca8])%list.
  apply (Permutation_app_comm [0xcca9; 0xcca8] [0xc02b; 0xc02f]).
Qed.

(** ** [decryptPEM] (claims C4, C5 and C9) *)

Section DecryptPEM.

Variable W : World.

Lemma decryptPEM_fails (pemData : bytes) (password : string) (e : error) :
  decryptPEM W pemData password = Err e <->
  DecryptFailure W pemData password e.
Proof.
  unfold decryptPEM. split.
  - destruct (pem_Decode W pemData) as [[keyBlock rest]|] eqn:HD.
    + destruct (x509.IsEncryptedPEMBlock keyBlock) eqn:HE; [|done].
      destruct (String.eqb_spec password "") as [Hp|Hp].
      * intros [= <-]. by eapply EncryptedWithoutPassword.
      * destruct (x509_DecryptPEMBlock W keyBlock _) as [key|err] eqn:HK;
          [done|].
        intros [= <-]. by eapply DecryptionFailed.
    + intros [= <-]. by apply MalformedPEM.
  - intros [HD | keyBlock rest HD HE -> | keyBlock rest err HD HE Hp HK];
      rewrite HD; [done | by rewrite HE | rewrite HE].
    destruct (String.eqb_spec password ""); [done|]. by rewrite HK.
Qed.

Lemma decryptPEM_plain (pemData : bytes) (password : string) keyBlock rest :
  pem_Decode W pemData = Some (keyBlock, rest) ->
  x509.IsEncryptedPEMBlock keyBlock = false ->
  decryptPEM W pemData password = Ok pemData.
Proof. intros HD HE. unfold decryptPEM. by rewrite HD, HE. Qed.

Lemma decryptPEM_encrypted (pemData : bytes) (password : string)
      keyBlock rest (out : bytes) :
  pem_Decode W pemData = Some (keyBlock, rest) ->
  x509.IsEncryptedPEMBlock keyBlock = true ->
  decryptPEM W pemData password = Ok out ->
  password <> ""
  /\ exists key,
      x509_DecryptPEMBlock W keyBlock (bytes_of_string password) = Ok key
      /\ out = pem_EncodeToMemory W (pem.mkBlock "RSA PRIVATE KEY" ∅ key).
Proof.
  intros HD HE. unfold decryptPEM. rewrite HD, HE.
  destruct (String.eqb_spec password "") as [Hp|Hp]; [done|].
  destruct (x509_DecryptPEMBlock W keyBlock _) as [key|err]; [|done].
  intros [= <-]. split; [done|]. by exists key.
Qed.

End DecryptPEM.

(** C4: [decryptPEM] returns an error if and only if the bytes hold no
    parseable PEM block, or the first block is encrypted and the password is
    empty, or the first block is encrypted, the password is not empty and
    decrypting with it fails; in every other case it succeeds. *)
Theorem C4_decryptPEM_error_iff (W : World) (pemData : bytes)
        (password : string) :
  (isOk (decryptPEM W pemData password) = false
   <-> decryptErrorCase W pemData password)
  /\ (~ decryptErrorCase W pemData password ->
      exists out, decryptPEM W pemData password = Ok out).
Proof.
  assert (Hiff : isOk (decryptPEM W pemData password) = false
                 <-> decryptErrorCase W pemData password).
  { unfold decryptErrorCase. split.
    - destruct (decryptPEM W pemData password) as [out|e] eqn:HR; [done|].
      intros _. apply decryptPEM_fails in HR.
      destruct HR
        as [HD | keyBlock rest HD HE Hp | keyBlock rest err HD HE Hp HK].
      + by left.
      + right; left. by exists keyBlock, rest.
      + right; right. exists keyBlock, rest. by rewrite HK.
    - intros [HD | [(keyBlock & rest & HD & HE & Hp)
                   | (keyBlock & rest & HD & HE & Hp & HK)]].
      + by rewrite (proj2 (decryptPEM_fails W _ _ _) (MalformedPEM W _ _ HD)).
      + by rewrite (proj2 (decryptPEM_fails W _ _ _)
                      (EncryptedWithoutPassword W _ _ _ _ HD HE Hp)).
      + destruct (x509_DecryptPEMBlock W keyBlock _) as [key|err] eqn:HK';
          [done|].
        by rewrite (proj2 (decryptPEM_fails W _ _ _)
                      (DecryptionFailed W _ _ _ _ _ HD HE Hp HK')). }
  split; [exact Hiff|].
  intros Hn. destruct (decryptPEM W pemData password) as [out|e]; [eauto|].
  exfalso. apply Hn, Hiff. reflexivity.
Qed.

(** C5: on bytes whose first PEM block parses and is not encrypted,
    [decryptPEM] returns the input bytes unchanged, whatever the
    password. *)
Theorem C5_decryptPEM_identity_on_plain (W : World) (pemData : bytes)
        (password : string) (keyBlock : pem.Block) (rest : bytes) :
  pem_Decode W pemData = Some (keyBlock, rest) ->
  x509.IsEncryptedPEMBlock keyBlock = false ->
  decryptPEM W pemData password = Ok pemData.
Proof. apply decryptPEM_plain. Qed.

Lemma C5_decryptPEM_identity_on_plain_witness :
  decryptPEM Demo.world (bytes_of_string "server.key") "unused"
  = Ok (bytes_of_string "server.key").
Proof.
  apply (C5_decryptPEM_identity_on_plain Demo.world
           (bytes_of_string "server.key") "unused"
           (pem.mkBlock "EC PRIVATE KEY" ∅ (bytes_of_string "server.key"))
           []).
  - vm_compute. reflexivity.
  - vm_compute. reflexivity.
Defined.

(** C9: whenever [decryptPEM] succeeds on an encrypted first block, what it
    returns is the PEM encoding of one block of type ["RSA PRIVATE KEY"],
    without headers, whose bytes are the decrypted key bytes; the type of
    the encrypted block does not enter. *)
Theorem C9_decrypted_key_reencoded_as_RSA (W : World) (pemData : bytes)
        (password : string) (keyBlock : pem.Block) (rest out : bytes) :
  pem_Decode W pemData = Some (keyBlock, rest) ->
  x509.IsEncryptedPEMBlock keyBlock = true ->
  decryptPEM W pemData password = Ok out ->
  exists key,
    x509_DecryptPEMBlock W keyBlock (bytes_of_string password) = Ok key
    /\ out = pem_EncodeToMemory W
               {| pem.Type_ := "RSA PRIVATE KEY";
                  pem.Headers := ∅;
                  pem.Bytes := key |}.
Proof.
  intros HD HE HR.
  by destruct (decryptPEM_encrypted W _ _ _ _ _ HD HE HR) as [_ H].
Qed.

Lemma C9_decrypted_key_reencoded_as_RSA_witness :
  exists key,
    Demo.DecryptPEMBlock
      (pem.mkBlock "EC PRIVATE KEY" {[ "DEK-Info" := "AES-128-CBC,0011" ]}
         (bytes_of_string "enc.key"))
      (bytes_of_string "secret") = Ok key
    /\ bytes_of_string "RSA PRIVATE KEYenc.key"
       = Demo.EncodeToMemory (pem.mkBlock "RSA PRIVATE KEY" ∅ key).
Proof.
  apply (C9_decrypted_key_reencoded_as_RSA Demo.world
           (bytes_of_string "enc.key") "secret"
           (pem.mkBlock "EC PRIVATE KEY"
              {[ "DEK-Info" := "AES-128-CBC,0011" ]}
              (bytes_of_string "enc.key"))
           [] (bytes_of_string "RSA PRIVATE KEYenc.key")).
  - vm_compute. reflexivity.
  - vm_compute. reflexivity.
  - vm_compute. reflexivity.
Defined.

Lemma C4_decryptPEM_error_iff_witness :
  isOk (decryptPEM Demo.world (bytes_of_string "enc.key") "") = false.
Proof.
  apply (proj1 (C4_decryptPEM_error_iff Demo.world
                  (bytes_of_string "enc.key") "")).
  right; left.
  exists (pem.mkBlock "EC PRIVATE KEY" {[ "DEK-Info" := "AES-128-CBC,0011" ]}
            (bytes_of_string "enc.key")), [].
  split; [vm_compute; reflexivity|]. split; [vm_compute; reflexivity|].
  reflexivity.
Defined.

(** ** The builders (claims C1, C6, C7, C8 and C10) *)

Lemma nonEmpty_true (s : string) : nonEmpty s = true <-> s <> "".
Proof.
  unfold nonEmpty. destruct (String.eqb_spec s ""); simpl; split; congruence.
Qed.

Lemma nonEmpty_false (s : string) : nonEmpty s = false <-> s = "".
Proof.
  unfold nonEmpty. destruct (String.eqb_spec s ""); simpl; split; congruence.
Qed.

Section Builders.

Variable W : World.

(** What a successful run of [newTLSListenerConfig] has gone through. *)
Lemma newTLSListenerConfig_ok conf t cfg t' :
  let opts := config.Proxy_TLS conf in
  newTLSListenerConfig W conf t = (Ok cfg, t') ->
  config.ListenerKeyFile opts <> "" /\ config.ListenerCertFile opts <> ""
  /\ exists certPEMBlock keyPEMBlock keyPEMBlock' cert,
      fileContents W (config.ListenerCertFile opts) = Ok certPEMBlock
      /\ fileContents W (config.ListenerKeyFile opts) = Ok keyPEMBlock
      /\ decryptPEM W keyPEMBlock (config.ListenerKeyPassword opts)
         = Ok keyPEMBlock'
      /\ tls_X509KeyPair W certPEMBlock keyPEMBlock' = Ok cert
      /\ Certificates cfg = [cert]
      /\ getCipherSuites (config.ListenerCipherSuites opts)
         = Ok (CipherSuites cfg)
      /\ getCurvePreferences (config.ListenerCurvePreferences opts)
         = Ok (CurvePreferences cfg)
      /\ PreferServerCipherSuites cfg = true
      /\ MinVersion cfg = tls.VersionTLS12.
Proof.
  intros opts H. unfold newTLSListenerConfig in H. io_unfold.
  repeat (case_match; simplify_eq/=);
    match goal with
    | H : _ || _ = false |- _ =>
        apply orb_false_iff in H; destruct H as [Hk Hc];
        apply String.eqb_neq in Hk, Hc
    end;
    (split; [done|]); (split; [done|]); eauto 15.
Qed.

Lemma newTLSListenerConfig_clientAuth conf t cfg t' :
  let ca := config.ProxyCAChainCertFile (config.Proxy_TLS conf) in
  newTLSListenerConfig W conf t = (Ok cfg, t') ->
  (ca <> "" ->
   ClientAuth cfg = tls.RequireAndVerifyClientCert
   /\ exists data pool,
       fileContents W ca = Ok data
       /\ AppendCertsFromPEM W (x509_NewCertPool W) data = (pool, true)
       /\ ClientCAs cfg = Some pool)
  /\ (ca = "" -> ClientAuth cfg = tls.NoClientCert /\ ClientCAs cfg = None).
Proof.
  intros ca H. unfold newTLSListenerConfig in H. io_unfold.
  repeat (case_match; simplify_eq/=);
    match goal with
    | H : nonEmpty _ = true |- _ => apply nonEmpty_true in H
    | H : nonEmpty _ = false |- _ => apply nonEmpty_false in H
    end; subst ca; (split; intros Hca; try done).
  split; [done|].
  match goal with
  | H : negb ?b = false |- _ => destruct b; [|done]
  end. eauto.
Qed.

Lemma newTLSListenerConfig_empty_path conf t :
  config.ListenerCertFile (config.Proxy_TLS conf) = ""
  \/ config.ListenerKeyFile (config.Proxy_TLS conf) = "" ->
  newTLSListenerConfig W conf t
  = (Err (errors_New "Listener key and cert files must not be empty"), t).
Proof.
  unfold newTLSListenerConfig.
  intros [-> | ->]; [by rewrite orb_true_r | done].
Qed.

(** The key-pair block of [newTLSClientConfig]. *)
Lemma clientKeyPair_ok opts cfg0 t cfg t' :
  clientKeyPair W opts cfg0 t = (Ok cfg, t') ->
  InsecureSkipVerify cfg = InsecureSkipVerify cfg0
  /\ MinVersion cfg = MinVersion cfg0
  /\ RootCAs cfg = RootCAs cfg0
  /\ ((config.ClientCertFile opts <> "" /\ config.ClientKeyFile opts <> "")
      /\ (exists cert, Certificates cfg = [cert])
      \/ ~ (config.ClientCertFile opts <> ""
            /\ config.ClientKeyFile opts <> "")
         /\ cfg = cfg0 /\ t' = t).
Proof.
  unfold clientKeyPair. intros H. io_unfold.
  repeat (case_match; simplify_eq/=);
    match goal with
    | H : _ && _ = true |- _ =>
        apply andb_true_iff in H; rewrite !nonEmpty_true in H
    | H : _ && _ = false |- _ =>
        apply andb_false_iff in H; rewrite !nonEmpty_false in H
    end; repeat split; eauto.
  right. repeat split. intros [? ?]. destruct H0; done.
Qed.

Lemma clientKeyPair_skipped opts cfg0 t :
  ~ (config.ClientCertFile opts <> "" /\ config.ClientKeyFile opts <> "") ->
  clientKeyPair W opts cfg0 t = (Ok cfg0, t).
Proof.
  intros Hn. unfold clientKeyPair.
  destruct (nonEmpty (config.ClientCertFile opts)
            && nonEmpty (config.ClientKeyFile opts)) eqn:E; [|done].
  apply andb_true_iff in E. rewrite !nonEmpty_true in E. done.
Qed.

(** The trust-roots block. *)
Lemma clientRootCAs_ok opts cfg0 t cfg t' :
  clientRootCAs W opts cfg0 t = (Ok cfg, t') ->
  InsecureSkipVerify cfg = InsecureSkipVerify cfg0
  /\ MinVersion cfg = MinVersion cfg0
  /\ Certificates cfg = Certificates cfg0.
Proof.
  unfold clientRootCAs. intros H. io_unfold.
  by repeat (case_match; simplify_eq/=).
Qed.

Lemma clientRootCAs_reads opts cfg0 t r t' :
  clientRootCAs W opts cfg0 t = (r, t') ->
  t' = (t ++ if nonEmpty (config.KafkaCAChainCertFile opts)
             then [config.KafkaCAChainCertFile opts] else [])%list.
Proof.
  unfold clientRootCAs. intros H. io_unfold.
  repeat (case_match; simplify_eq/=); by rewrite ?app_nil_r.
Qed.

Lemma newTLSClientConfig_ok conf t cfg t' :
  let opts := config.Kafka_TLS conf in
  newTLSClientConfig W conf t = (Ok cfg, t') ->
  InsecureSkipVerify cfg = config.KafkaInsecureSkipVerify opts
  /\ MinVersion cfg = 0
  /\ ((config.ClientCertFile opts <> "" /\ config.ClientKeyFile opts <> "")
      /\ (exists cert, Certificates cfg = [cert])
      \/ ~ (config.ClientCertFile opts <> ""
            /\ config.ClientKeyFile opts <> "")
         /\ Certificates cfg = []).
Proof.
  intros opts H. unfold newTLSClientConfig in H.
  unfold try at 1, bind at 1 in H.
  destruct (clientKeyPair W _ _ t) as [[cfg1|e] t1] eqn:H1; [|done].
  apply clientKeyPair_ok in H1. apply clientRootCAs_ok in H.
  destruct H1 as (Hs & Hm & _ & Hc), H as (Hs' & Hm' & Hc').
  rewrite Hs', Hm', Hc', Hs, Hm. split; [done|]. split; [done|].
  destruct Hc as [[Hb Hcert] | (Hn & -> & _)]; [by left | by right].
Qed.

End Builders.

(** C1, as stated, on the client side: with nothing configured,
    [newTLSClientConfig] returns a config whose minimum version is 0, the
    unset value, not the identifier of TLS 1.2. *)
Lemma C1_client_min_version_counterexample :
  exists cfg,
    run (newTLSClientConfig Demo.world (Demo.client "" "" "" "" false))
    = (Ok cfg, [])
    /\ MinVersion cfg = 0
    /\ MinVersion cfg <> tls.VersionTLS12.
Proof. eexists. split; [vm_compute; reflexivity|]. by split. Qed.

(** C1 (amended): every config returned by [newTLSListenerConfig] has its
    minimum protocol version equal to the identifier of TLS 1.2, for all
    inputs; [newTLSClientConfig] sets no minimum version: every config it
    returns has that field at 0, the unset value. *)
Theorem C1_min_version (W : World) (conf : config.Config)
        (t t' : list string) (cfg : tlsConfig W) :
  (newTLSListenerConfig W conf t = (Ok cfg, t') ->
   MinVersion cfg = tls.VersionTLS12)
  /\ (newTLSClientConfig W conf t = (Ok cfg, t') -> MinVersion cfg = 0).
Proof.
  split; intros H.
  - apply newTLSListenerConfig_ok in H.
    destruct H as (_ & _ & certPEM & keyPEM & key & cert & H).
    by destruct H as (_ & _ & _ & _ & _ & _ & _ & _ & H).
  - apply newTLSClientConfig_ok in H. by destruct H as (_ & H & _).
Qed.

Lemma C1_min_version_witness :
  MinVersion
    (@mkTlsConfig Demo.world
       [(bytes_of_string "server.pem", bytes_of_string "server.key")]
       None None None tls.NoClientCert false
       [0xc013] true 0x0303 [23; 29])
  = tls.VersionTLS12.
Proof.
  apply (proj1 (C1_min_version Demo.world
                  (Demo.listener "server.pem" "server.key" "" ""
                     ["ECDHE-RSA-AES128-CBC-SHA"] [])
                  [] ["server.pem"; "server.key"] _)).
  vm_compute. reflexivity.
Defined.

(** C6: in every config returned by [newTLSListenerConfig], if the CA-chain
    path is not empty the client-authentication mode is require-and-verify
    and the client-CA pool is the pool loaded from the contents of that
    file; if the CA-chain path is empty the mode is no-client-cert and no
    client-CA pool is set. *)
Theorem C6_listener_client_auth (W : World) (conf : config.Config)
        (t t' : list string) (cfg : tlsConfig W) :
  newTLSListenerConfig W conf t = (Ok cfg, t') ->
  (config.ProxyCAChainCertFile (config.Proxy_TLS conf) <> "" ->
   ClientAuth cfg = tls.RequireAndVerifyClientCert
   /\ exists data pool,
       fileContents W (config.ProxyCAChainCertFile (config.Proxy_TLS conf))
       = Ok data
       /\ AppendCertsFromPEM W (x509_NewCertPool W) data = (pool, true)
       /\ ClientCAs cfg = Some pool)
  /\ (config.ProxyCAChainCertFile (config.Proxy_TLS conf) = "" ->
      ClientAuth cfg = tls.NoClientCert /\ ClientCAs cfg = None).
Proof. apply newTLSListenerConfig_clientAuth. Qed.

Lemma C6_listener_client_auth_witness :
  exists cfg : tlsConfig Demo.world,
    ClientAuth cfg = tls.RequireAndVerifyClientCert
    /\ ClientCAs cfg = Some [bytes_of_string "ca.pem"].
Proof.
  pose (conf := Demo.listener "server.pem" "server.key" "" "ca.pem" [] []).
  pose (cfg := @mkTlsConfig Demo.world
                 [(bytes_of_string "server.pem", bytes_of_string "server.key")]
                 None None (Some [bytes_of_string "ca.pem"])
                 tls.RequireAndVerifyClientCert false
                 defaultCipherSuites true 0x0303 defaultCurvePreferences).
  assert (Hrun : newTLSListenerConfig Demo.world conf []
                 = (Ok cfg, ["server.pem"; "server.key"; "ca.pem"]))
    by (vm_compute; reflexivity).
  destruct (C6_listener_client_auth Demo.world conf [] _ cfg Hrun)
    as [Hca _].
  destruct Hca as [Hauth _]; [discriminate|].
  exists cfg. split; [exact Hauth | reflexivity].
Defined.

(** C7: [newTLSListenerConfig] fails, with an error and no config, whenever
    the listener certificate path or the listener key path is empty, and it
    does so before any file is read: the trace of reads is returned as it
    was received. *)
Theorem C7_listener_requires_cert_and_key (W : World) (conf : config.Config)
        (t : list string) :
  config.ListenerCertFile (config.Proxy_TLS conf) = ""
  \/ config.ListenerKeyFile (config.Proxy_TLS conf) = "" ->
  newTLSListenerConfig W conf t
  = (Err (errors_New "Listener key and cert files must not be empty"), t).
Proof. apply newTLSListenerConfig_empty_path. Qed.

Lemma C7_listener_requires_cert_and_key_witness :
  run (newTLSListenerConfig Demo.world
         (Demo.listener "server.pem" "" "secret" "ca.pem" [] []))
  = (Err (errors_New "Listener key and cert files must not be empty"), []).
Proof.
  apply (C7_listener_requires_cert_and_key Demo.world
           (Demo.listener "server.pem" "" "secret" "ca.pem" [] []) []).
  right. reflexivity.
Defined.

(** C8, as stated: with exactly one of the two paths set the build does not
    always succeed; here only the certificate path is set and the CA-chain
    file cannot be read, and the build fails. *)
Lemma C8_half_pair_build_fails_counterexample :
  config.ClientCertFile
    (config.Kafka_TLS (Demo.client "client.pem" "" "" "missing.pem" false))
  <> ""
  /\ config.ClientKeyFile
       (config.Kafka_TLS (Demo.client "client.pem" "" "" "missing.pem" false))
     = ""
  /\ run (newTLSClientConfig Demo.world
            (Demo.client "client.pem" "" "" "missing.pem" false))
     = (Err (mkError "open missing.pem: no such file or directory"),
        ["missing.pem"]).
Proof.
  split; [discriminate|]. split; [reflexivity|]. vm_compute. reflexivity.
Qed.

(** C8 (amended): [newTLSClientConfig] uses the client certificate and key
    paths only as a pair: a config it returns holds a client certificate if
    and only if both paths are non-empty.  When exactly one of the two
    paths is non-empty, neither file is read and no error comes from the
    pair: the only file read is the CA chain, if one is configured, and the
    build succeeds, with no client certificate in the config, whenever the
    CA-chain path is empty or the CA chain is read and parsed. *)
Theorem C8_client_pair_only (W : World) (conf : config.Config)
        (t : list string) :
  let opts := config.Kafka_TLS conf in
  let cert := config.ClientCertFile opts in
  let key := config.ClientKeyFile opts in
  let ca := config.KafkaCAChainCertFile opts in
  (forall cfg t',
      newTLSClientConfig W conf t = (Ok cfg, t') ->
      Certificates cfg <> [] <-> cert <> "" /\ key <> "")
  /\ ((cert <> "" /\ key = "") \/ (cert = "" /\ key <> "") ->
      (forall r t',
          newTLSClientConfig W conf t = (r, t') ->
          t' = (t ++ if nonEmpty ca then [ca] else [])%list)
      /\ (ca = "" ->
          exists cfg, newTLSClientConfig W conf t = (Ok cfg, t)
                      /\ Certificates cfg = [])
      /\ (forall data pool,
             ca <> "" ->
             fileContents W ca = Ok data ->
             AppendCertsFromPEM W (x509_NewCertPool W) data = (pool, true) ->
             exists cfg,
               newTLSClientConfig W conf t = (Ok cfg, (t ++ [ca])%list)
               /\ Certificates cfg = [])).
Proof.
  intros opts cert key ca. split.
  - intros cfg t' H. apply newTLSClientConfig_ok in H.
    destruct H as (_ & _ & [[Hb [c Hc]] | [Hn Hc]]);
      rewrite Hc; split; done.
  - intros Hone.
    assert (Hn : ~ (cert <> "" /\ key <> ""))
      by (intros [? ?]; destruct Hone as [[? ?]|[? ?]]; done).
    unfold newTLSClientConfig. fold opts.
    unfold try, bind.
    rewrite (clientKeyPair_skipped W opts _ t Hn).
    split; [|split].
    + intros r t'. apply clientRootCAs_reads.
    + intros Hca. unfold clientRootCAs. fold ca.
      rewrite (proj2 (nonEmpty_false ca) Hca). by eexists.
    + intros data pool Hca Hdata Hpool. unfold clientRootCAs. fold ca.
      rewrite (proj2 (nonEmpty_true ca) Hca). io_unfold.
      rewrite Hdata, Hpool. simpl. by eexists.
Qed.

Lemma C8_client_pair_only_witness :
  exists cfg,
    run (newTLSClientConfig Demo.world
           (Demo.client "" "client.key" "secret" "ca.pem" true))
    = (Ok cfg, ["ca.pem"])
    /\ Certificates cfg = [].
Proof.
  destruct (C8_client_pair_only Demo.world
              (Demo.client "" "client.key" "secret" "ca.pem" true) [])
    as [_ H].
  destruct H as (_ & _ & H); [right; split; [reflexivity | discriminate]|].
  apply (H (bytes_of_string "ca.pem") [bytes_of_string "ca.pem"]).
  - discriminate.
  - vm_compute. reflexivity.
  - vm_compute. reflexivity.
Defined.

Lemma newTLSClientConfig_flag (W : World) (conf : config.Config)
      (t : list string) (b : bool) :
  newTLSClientConfig W (setSkipVerifyFlag b conf) t
  = (match fst (newTLSClientConfig W conf t) with
     | Ok cfg => Ok (withInsecureSkipVerify b cfg)
     | Err e => Err e
     end,
     snd (newTLSClientConfig W conf t)).
Proof.
  destruct conf as [proxy [cert key password ca flag]].
  unfold newTLSClientConfig, clientKeyPair, clientRootCAs, setSkipVerifyFlag,
    withInsecureSkipVerify.
  simpl. io_unfold.
  repeat (case_match; simplify_eq/=); reflexivity.
Qed.

(** C10: for every configuration, a config returned by
    [newTLSClientConfig] has its [InsecureSkipVerify] field equal to the
    configured skip-verify flag, and the flag does nothing else: with the
    flag set to any value and the rest of the configuration unchanged, the
    builder reads the same files, fails with the same error where it
    failed, and where it succeeded returns the same config with that one
    field replaced.  So verification is bypassed exactly when the flag is
    set, and with the flag at its default, false, it is not bypassed. *)
Theorem C10_skip_verify_is_the_flag (W : World) (conf : config.Config)
        (t : list string) :
  (forall cfg t',
      newTLSClientConfig W conf t = (Ok cfg, t') ->
      InsecureSkipVerify cfg
      = config.KafkaInsecureSkipVerify (config.Kafka_TLS conf))
  /\ (forall b,
         newTLSClientConfig W (setSkipVerifyFlag b conf) t
         = (match fst (newTLSClientConfig W conf t) with
            | Ok cfg => Ok (withInsecureSkipVerify b cfg)
            | Err e => Err e
            end,
            snd (newTLSClientConfig W conf t)))
  /\ (forall b cfg t',
         newTLSClientConfig W conf t = (Ok cfg, t') ->
         exists cfg',
           newTLSClientConfig W (setSkipVerifyFlag b conf) t = (Ok cfg', t')
           /\ InsecureSkipVerify cfg' = b)
  /\ (config.KafkaInsecureSkipVerify (config.Kafka_TLS conf)
      = defaultInsecureSkipVerify ->
      forall cfg t',
        newTLSClientConfig W conf t = (Ok cfg, t') ->
        InsecureSkipVerify cfg = false).
Proof.
  assert (H1 : forall cfg t',
             newTLSClientConfig W conf t = (Ok cfg, t') ->
             InsecureSkipVerify cfg
             = config.KafkaInsecureSkipVerify (config.Kafka_TLS conf)).
  { intros cfg t' H. apply newTLSClientConfig_ok in H. by destruct H. }
  split; [exact H1|]. split; [apply newTLSClientConfig_flag|]. split.
  - intros b cfg t' H. exists (withInsecureSkipVerify b cfg).
    by rewrite newTLSClientConfig_flag, H.
  - intros Hd cfg t' H. by rewrite (H1 _ _ H), Hd.
Qed.

Lemma C10_skip_verify_is_the_flag_witness :
  exists cfg,
    newTLSClientConfig Demo.world
      (Demo.client "client.pem" "enc.key" "secret" "ca.pem" true) []
    = (Ok cfg, ["client.pem"; "enc.key"; "ca.pem"])
    /\ InsecureSkipVerify cfg = true.
Proof.
  destruct (C10_skip_verify_is_the_flag Demo.world
              (Demo.client "client.pem" "enc.key" "secret" "ca.pem" false) [])
    as (_ & _ & H & _).
  apply (H true
           (@mkTlsConfig Demo.world
              [(bytes_of_string "client.pem",
                bytes_of_string "RSA PRIVATE KEYenc.key")]
              (Some 1%nat) (Some [bytes_of_string "ca.pem"]) None
              tls.NoClientCert false [] false 0 [])).
  vm_compute. reflexivity.
Defined.

(** * Further properties of [tls.go] *)

(** ** The resolvers *)

Lemma getCipherSuites_unfold (names : list string) :
  getCipherSuites names
  = resolveOrDefault supportedCiphersMap invalidCipherSuite
      defaultCipherSuites names.
Proof. reflexivity. Qed.

Lemma getCurvePreferences_unfold (names : list string) :
  getCurvePreferences names
  = resolveOrDefault supportedCurvesMap invalidCurveID
      defaultCurvePreferences names.
Proof. reflexivity. Qed.

Section ResolveOrDefault.

Variable table : gmap string Z.
Variable mkErr : string -> error.
Variable dflt : list Z.

Lemma resolveLoop_inv (names : list string) (acc r : list Z) :
  resolveLoop table mkErr names acc = Ok r ->
  exists ids, Forall2 (resolvesTo table) names ids /\ r = (acc ++ ids)%list.
Proof.
  revert acc. induction names as [|name names IH]; intros acc; simpl.
  - intros [= <-]. exists []. split; [constructor | by rewrite app_nil_r].
  - destruct (table !! Strings.TrimSpace name) as [id|] eqn:Hid; [|done].
    intros H. destruct (IH _ H) as (ids & Hids & ->).
    exists (id :: ids). split; [by constructor | by rewrite <- app_assoc].
Qed.

Lemma resolveLoop_app (l1 l2 : list string) (acc : list Z) :
  resolveLoop table mkErr (l1 ++ l2) acc
  = match resolveLoop table mkErr l1 acc with
    | Err e => Err e
    | Ok r => resolveLoop table mkErr l2 r
    end.
Proof.
  revert acc. induction l1 as [|name l1 IH]; intros acc; simpl; [done|].
  destruct (table !! Strings.TrimSpace name); [apply IH | done].
Qed.

Lemma resolveLoop_same_trim (l1 l2 : list string) (acc : list Z) :
  Forall2 (fun a b => Strings.TrimSpace a = Strings.TrimSpace b) l1 l2 ->
  isOk (resolveLoop table mkErr l1 acc) = true ->
  resolveLoop table mkErr l2 acc = resolveLoop table mkErr l1 acc.
Proof.
  intros H. revert acc.
  induction H as [|a b l1 l2 Hab _ IH]; intros acc; simpl; [done|].
  rewrite <- Hab. destruct (table !! Strings.TrimSpace a); [apply IH | done].
Qed.

Lemma resolveOrDefault_inv (names : list string) (ids : list Z) :
  resolveOrDefault table mkErr dflt names = Ok ids ->
  (names = [] /\ ids = dflt)
  \/ (names <> [] /\ Forall2 (resolvesTo table) names ids).
Proof.
  unfold resolveOrDefault.
  destruct (resolveLoop table mkErr names []) as [r|e] eqn:HR; [|done].
  destruct (resolveLoop_inv _ _ _ HR) as (ids' & Hids & ->). simpl.
  destruct Hids as [|name id names ids' Hid Hids]; simpl.
  - intros [= <-]. by left.
  - intros [= <-]. right. split; [done | by constructor].
Qed.

Lemma resolveOrDefault_resolved (names : list string) (ids : list Z) :
  names <> [] -> Forall2 (resolvesTo table) names ids ->
  resolveOrDefault table mkErr dflt names = Ok ids.
Proof.
  intros Hne H. unfold resolveOrDefault.
  rewrite (resolveLoop_all _ _ _ _ _ H). simpl.
  by rewrite (Forall2_nonempty_length _ _ _ H Hne).
Qed.

Lemma resolveOrDefault_nonempty (names : list string) (ids : list Z) :
  dflt <> [] ->
  resolveOrDefault table mkErr dflt names = Ok ids -> ids <> [].
Proof.
  intros Hd H. destruct (resolveOrDefault_inv _ _ H) as [[_ ->]|[Hne HF]];
    [done|].
  destruct HF; done.
Qed.

Lemma resolveOrDefault_range (names : list string) (ids : list Z) :
  Forall (fun id => exists name, table !! name = Some id) dflt ->
  resolveOrDefault table mkErr dflt names = Ok ids ->
  Forall (fun id => exists name, table !! name = Some id) ids.
Proof.
  intros Hd H. destruct (resolveOrDefault_inv _ _ H) as [[_ ->]|[_ HF]];
    [done|].
  clear H. induction HF as [|name id names ids Hid _ IH]; [constructor|].
  constructor; [by exists (Strings.TrimSpace name) | done].
Qed.

Lemma resolveOrDefault_same_trim (l1 l2 : list string) (ids : list Z) :
  Forall2 (fun a b => Strings.TrimSpace a = Strings.TrimSpace b) l1 l2 ->
  resolveOrDefault table mkErr dflt l1 = Ok ids ->
  resolveOrDefault table mkErr dflt l2 = Ok ids.
Proof.
  intros HT. unfold resolveOrDefault.
  destruct (resolveLoop table mkErr l1 []) as [r|e] eqn:HR; [|done].
  rewrite (resolveLoop_same_trim _ _ _ HT); rewrite HR; done.
Qed.

Lemma resolveOrDefault_app (l1 l2 : list string) (a b : list Z) :
  l1 <> [] -> l2 <> [] ->
  resolveOrDefault table mkErr dflt l1 = Ok a ->
  resolveOrDefault table mkErr dflt l2 = Ok b ->
  resolveOrDefault table mkErr dflt (l1 ++ l2) = Ok (a ++ b)%list.
Proof.
  intros H1 H2 Ha Hb.
  destruct (resolveOrDefault_inv _ _ Ha) as [[? _]|[_ Fa]]; [done|].
  destruct (resolveOrDefault_inv _ _ Hb) as [[? _]|[_ Fb]]; [done|].
  apply resolveOrDefault_resolved.
  - destruct l1; [done | discriminate].
  - by apply Forall2_app.
Qed.

Lemma resolveOrDefault_error_prefix (l1 l2 : list string) (e : error) :
  resolveOrDefault table mkErr dflt l1 = Err e ->
  resolveOrDefault table mkErr dflt (l1 ++ l2) = Err e.
Proof.
  unfold resolveOrDefault. rewrite resolveLoop_app.
  destruct (resolveLoop table mkErr l1 []) as [r|e'];
    [by destruct (length r =? 0)%nat | done].
Qed.

Lemma resolveOrDefault_unrecognized (names : list string) :
  Exists (fun n => ~ recognized table n) names ->
  isOk (resolveOrDefault table mkErr dflt names) = false.
Proof.
  intros HE.
  destruct (first_unrecognized _ _ HE) as (pre & bad & post & -> & Hp & Hb).
  unfold resolveOrDefault. by rewrite resolveLoop_first_bad.
Qed.

End ResolveOrDefault.

Lemma defaultCipherSuites_named :
  Forall (fun id => exists name, supportedCiphersMap !! name = Some id)
         defaultCipherSuites.
Proof.
  unfold defaultCipherSuites. repeat apply Forall_cons_2; [..|constructor].
  - by exists "ECDHE-ECDSA-AES256-GCM-SHA384".
  - by exists "ECDHE-RSA-AES256-GCM-SHA384".
  - by exists "ECDHE-ECDSA-WITH-CHACHA20-POLY1305".
  - by exists "ECDHE-RSA-WITH-CHACHA20-POLY1305".
  - by exists "ECDHE-ECDSA-AES128-GCM-SHA256".
  - by exists "ECDHE-RSA-AES128-GCM-SHA256".
Qed.

Lemma defaultCurvePreferences_named :
  Forall (fun id => exists name, supportedCurvesMap !! name = Some id)
         defaultCurvePreferences.
Proof.
  unfold defaultCurvePreferences. repeat apply Forall_cons_2; [..|constructor].
  - by exists "P256".
  - by exists "X25519".
Qed.

(** X1: a successful [getCipherSuites] (resp. [getCurvePreferences]) has
    either received the empty list and returned the default list, or
    received a non-empty list and returned, position by position, the
    identifiers of its trimmed names. *)
Theorem X1_resolver_success_inversion (names : list string) (ids : list Z) :
  (getCipherSuites names = Ok ids ->
   (names = [] /\ ids = defaultCipherSuites)
   \/ (names <> [] /\ Forall2 (resolvesTo supportedCiphersMap) names ids))
  /\ (getCurvePreferences names = Ok ids ->
      (names = [] /\ ids = defaultCurvePreferences)
      \/ (names <> [] /\ Forall2 (resolvesTo supportedCurvesMap) names ids)).
Proof.
  split; [rewrite getCipherSuites_unfold | rewrite getCurvePreferences_unfold];
    apply resolveOrDefault_inv.
Qed.

Lemma X1_resolver_success_inversion_witness :
  (["P521 "] = [] /\ [25] = defaultCurvePreferences)
  \/ (["P521 "] <> []
      /\ Forall2 (resolvesTo supportedCurvesMap) ["P521 "] [25]).
Proof.
  apply (proj2 (X1_resolver_success_inversion ["P521 "] [25])).
  vm_compute. reflexivity.
Defined.

(** X2: the list a resolver returns is never empty, and each of its
    elements is an identifier that a name of the table maps to: the default
    lists, too, hold only identifiers that can be configured by name. *)
Theorem X2_resolver_result_supported (names : list string) (ids : list Z) :
  (getCipherSuites names = Ok ids ->
   ids <> []
   /\ Forall (fun id => exists name, supportedCiphersMap !! name = Some id)
             ids)
  /\ (getCurvePreferences names = Ok ids ->
      ids <> []
      /\ Forall (fun id => exists name, supportedCurvesMap !! name = Some id)
                ids).
Proof.
  split; intros H.
  - rewrite getCipherSuites_unfold in H. split.
    + eapply resolveOrDefault_nonempty; [|exact H].
      unfold defaultCipherSuites. discriminate.
    + eapply resolveOrDefault_range; [|exact H].
      apply defaultCipherSuites_named.
  - rewrite getCurvePreferences_unfold in H. split.
    + eapply resolveOrDefault_nonempty; [|exact H].
      unfold defaultCurvePreferences. discriminate.
    + eapply resolveOrDefault_range; [|exact H].
      apply defaultCurvePreferences_named.
Qed.

Lemma X2_resolver_result_supported_witness :
  defaultCipherSuites <> []
  /\ Forall (fun id => exists name, supportedCiphersMap !! name = Some id)
            defaultCipherSuites.
Proof.
  apply (proj1 (X2_resolver_result_supported [] defaultCipherSuites)).
  reflexivity.
Defined.

(** X3: only the trimmed names matter to a successful resolution: two lists
    whose elements agree position by position after trimming give the same
    identifiers. *)
Theorem X3_resolver_ignores_surrounding_space (l1 l2 : list string)
        (ids : list Z) :
  Forall2 (fun a b => Strings.TrimSpace a = Strings.TrimSpace b) l1 l2 ->
  (getCipherSuites l1 = Ok ids -> getCipherSuites l2 = Ok ids)
  /\ (getCurvePreferences l1 = Ok ids -> getCurvePreferences l2 = Ok ids).
Proof.
  intros HT.
  split;
    [rewrite !getCipherSuites_unfold | rewrite !getCurvePreferences_unfold];
    by apply resolveOrDefault_same_trim.
Qed.

Lemma X3_resolver_ignores_surrounding_space_witness :
  getCurvePreferences ["P384"; "X25519"] = Ok [24; 29].
Proof.
  refine (proj2 (X3_resolver_ignores_surrounding_space
                   [" P384"; "X25519  "] ["P384"; "X25519"] [24; 29] _) _).
  - repeat constructor.
  - vm_compute. reflexivity.
Defined.

(** X4: resolution distributes over concatenation of non-empty lists: the
    identifiers of [l1 ++ l2] are those of [l1] followed by those of
    [l2]. *)
Theorem X4_resolver_concatenation (l1 l2 : list string) (a b : list Z) :
  l1 <> [] -> l2 <> [] ->
  (getCipherSuites l1 = Ok a -> getCipherSuites l2 = Ok b ->
   getCipherSuites (l1 ++ l2) = Ok (a ++ b)%list)
  /\ (getCurvePreferences l1 = Ok a -> getCurvePreferences l2 = Ok b ->
      getCurvePreferences (l1 ++ l2) = Ok (a ++ b)%list).
Proof.
  intros H1 H2.
  split;
    [rewrite !getCipherSuites_unfold | rewrite !getCurvePreferences_unfold];
    by apply resolveOrDefault_app.
Qed.

Lemma X4_resolver_concatenation_witness :
  getCurvePreferences (["P384"] ++ ["P256"; "P521"])
  = Ok ([24] ++ [23; 25])%list.
Proof.
  refine (proj2 (X4_resolver_concatenation
                   ["P384"] ["P256"; "P521"] [24] [23; 25] _ _) _ _).
  - discriminate.
  - discriminate.
  - vm_compute. reflexivity.
  - vm_compute. reflexivity.
Defined.

(** X5: the first unrecognized name decides the outcome: a list on which
    a resolver fails fails with the same error however it is continued;
    the names after the offending one are not looked at. *)
Theorem X5_resolver_first_error_wins (l1 l2 : list string) (e : error) :
  (getCipherSuites l1 = Err e -> getCipherSuites (l1 ++ l2) = Err e)
  /\ (getCurvePreferences l1 = Err e ->
      getCurvePreferences (l1 ++ l2) = Err e).
Proof.
  rewrite !getCipherSuites_unfold, !getCurvePreferences_unfold.
  split; apply resolveOrDefault_error_prefix.
Qed.

Lemma X5_resolver_first_error_wins_witness :
  getCurvePreferences (["P384"; "secp256k1"] ++ ["P256"; "bogus"])
  = Err (mkError "invalid curveID 'secp256k1' selected").
Proof.
  apply (proj2 (X5_resolver_first_error_wins
                  ["P384"; "secp256k1"] ["P256"; "bogus"] _)).
  vm_compute. reflexivity.
Defined.

(** X6: the tables have no aliases: two names that a table maps to the same
    identifier are the same name. *)
Theorem X6_tables_injective (a b : string) (id : Z) :
  (supportedCiphersMap !! a = Some id -> supportedCiphersMap !! b = Some id ->
   a = b)
  /\ (supportedCurvesMap !! a = Some id -> supportedCurvesMap !! b = Some id ->
      a = b).
Proof.
  split; intros Ha Hb;
    apply elem_of_list_to_map_2 in Ha; apply elem_of_list_to_map_2 in Hb;
    vm_compute in Ha, Hb;
    repeat (apply elem_of_cons in Ha as [Ha|Ha]);
    try (by apply elem_of_nil in Ha);
    injection Ha as -> ->;
    repeat (apply elem_of_cons in Hb as [Hb|Hb]);
    try (by apply elem_of_nil in Hb);
    by injection Hb as ->.
Qed.

Lemma X6_tables_injective_witness :
  "P384" = "P384".
Proof.
  refine (proj2 (X6_tables_injective "P384" "P384" 24) _ _);
    vm_compute; reflexivity.
Defined.

(** ** [decryptPEM] *)

(** X7: the error of a failed [decryptPEM] is ["Failed to parse PEM"] when
    no block parses, ["PEM is encrypted, but password is empty"] when the
    first block is encrypted and no password is given, and otherwise the
    error of [x509.DecryptPEMBlock], passed on unchanged; no other error
    arises. *)
Theorem X7_decryptPEM_errors (W : World) (pemData : bytes)
        (password : string) (e : error) :
  decryptPEM W pemData password = Err e
  <-> (pem_Decode W pemData = None /\ e = errors_New "Failed to parse PEM")
      \/ (exists keyBlock rest,
             pem_Decode W pemData = Some (keyBlock, rest)
             /\ x509.IsEncryptedPEMBlock keyBlock = true
             /\ ((password = ""
                  /\ e = errors_New "PEM is encrypted, but password is empty")
                 \/ (password <> ""
                     /\ x509_DecryptPEMBlock W keyBlock
                          (bytes_of_string password) = Err e))).
Proof.
  rewrite decryptPEM_fails. split.
  - intros [HD | keyBlock rest HD HE Hp | keyBlock rest err HD HE Hp HK].
    + by left.
    + right. exists keyBlock, rest. split; [done|]. split; [done|]. by left.
    + right. exists keyBlock, rest. split; [done|]. split; [done|]. by right.
  - intros [[HD ->] | (keyBlock & rest & HD & HE & [[Hp ->] | [Hp HK]])].
    + by apply MalformedPEM.
    + by eapply EncryptedWithoutPassword.
    + by eapply DecryptionFailed.
Qed.

Lemma X7_decryptPEM_errors_witness :
  decryptPEM Demo.world (bytes_of_string "enc.key") "guess"
  = Err (mkError "x509: decryption password incorrect").
Proof.
  apply (proj2 (X7_decryptPEM_errors Demo.world
                  (bytes_of_string "enc.key") "guess" _)).
  right.
  exists (pem.mkBlock "EC PRIVATE KEY" {[ "DEK-Info" := "AES-128-CBC,0011" ]}
            (bytes_of_string "enc.key")), [].
  split; [vm_compute; reflexivity|]. split; [vm_compute; reflexivity|].
  right. split; [discriminate | vm_compute; reflexivity].
Defined.

(** X8: on an encrypted first block, everything after that block is
    dropped: two inputs with the same first block give the same outcome,
    whatever follows the block.  (A plain input is returned whole.) *)
Theorem X8_decryptPEM_drops_what_follows (W : World) (data1 data2 : bytes)
        (password : string) (keyBlock : pem.Block) (rest1 rest2 : bytes) :
  pem_Decode W data1 = Some (keyBlock, rest1) ->
  pem_Decode W data2 = Some (keyBlock, rest2) ->
  x509.IsEncryptedPEMBlock keyBlock = true ->
  decryptPEM W data1 password = decryptPEM W data2 password.
Proof. intros H1 H2 HE. unfold decryptPEM. by rewrite H1, H2, HE. Qed.

Lemma X8_decryptPEM_drops_what_follows_witness :
  decryptPEM ByteBlocks.world (bytes_of_string "k, then more") "secret"
  = decryptPEM ByteBlocks.world (bytes_of_string "k") "secret".
Proof.
  apply (X8_decryptPEM_drops_what_follows ByteBlocks.world
           (bytes_of_string "k, then more") (bytes_of_string "k") "secret"
           (pem.mkBlock "ENCRYPTED PRIVATE KEY"
              {[ "DEK-Info" := "DES-EDE3-CBC,00" ]} (bytes_of_string "k"))
           (bytes_of_string ", then more") []).
  - vm_compute. reflexivity.
  - vm_compute. reflexivity.
  - vm_compute. reflexivity.
Defined.

(** X9: what a successful [decryptPEM] returns is accepted again,
    unchanged and with any password, whenever the PEM library decodes the
    encoding of a header-less block to a block without [DEK-Info] header:
    the output is never itself an encrypted key. *)
Theorem X9_decryptPEM_output_is_plain (W : World) (pemData out : bytes)
        (password password' : string) :
  (forall key, exists block rest,
      pem_Decode W (pem_EncodeToMemory W
                      (pem.mkBlock "RSA PRIVATE KEY" ∅ key))
      = Some (block, rest)
      /\ x509.IsEncryptedPEMBlock block = false) ->
  decryptPEM W pemData password = Ok out ->
  decryptPEM W out password' = Ok out.
Proof.
  intros Hlib H.
  destruct (pem_Decode W pemData) as [[keyBlock rest]|] eqn:HD;
    [|by unfold decryptPEM in H; rewrite HD in H].
  destruct (x509.IsEncryptedPEMBlock keyBlock) eqn:HE.
  - destruct (decryptPEM_encrypted W _ _ _ _ _ HD HE H) as (_ & key & _ & ->).
    destruct (Hlib key) as (block & rest' & HD' & HE').
    by eapply decryptPEM_plain.
  - rewrite (decryptPEM_plain W _ password _ _ HD HE) in H.
    injection H as <-. by eapply decryptPEM_plain.
Qed.

Lemma X9_decryptPEM_output_is_plain_witness :
  decryptPEM Demo.world (bytes_of_string "RSA PRIVATE KEYenc.key") "other"
  = Ok (bytes_of_string "RSA PRIVATE KEYenc.key").
Proof.
  apply (X9_decryptPEM_output_is_plain Demo.world
           (bytes_of_string "enc.key") _ "secret" "other").
  - intros key. eexists _, _. split; reflexivity.
  - vm_compute. reflexivity.
Defined.

(** ** [newTLSListenerConfig] *)

Section ListenerFacts.

Variable W : World.
Variable conf : config.Config.

Let opts := config.Proxy_TLS conf.

Lemma newTLSListenerConfig_built t cfg t' :
  newTLSListenerConfig W conf t = (Ok cfg, t') ->
  listenerBuilt W opts t cfg t'.
Proof.
  intros H. unfold newTLSListenerConfig in H. io_unfold.
  unfold listenerBuilt, listenerPaths. fold opts in H |- *.
  repeat (case_match; simplify_eq/=);
    match goal with
    | H : _ || _ = false |- _ =>
        apply orb_false_iff in H; destruct H as [Hk Hc];
        apply String.eqb_neq in Hk, Hc
    end;
    match goal with
    | H : nonEmpty _ = true |- _ => pose proof (proj1 (nonEmpty_true _) H)
    | H : nonEmpty _ = false |- _ => pose proof (proj1 (nonEmpty_false _) H)
    end;
    (split; [done|]); (split; [done|]);
    (split; [by rewrite <- ?app_assoc|]);
    do 4 eexists; repeat (split; [done|]).
  - right. split; [done|]. do 2 eexists.
    match goal with
    | H : negb ?b = false |- _ => destruct b; [|done]
    end. done.
  - by left.
Qed.

Lemma listenerBuilt_run t cfg t' :
  listenerBuilt W opts t cfg t' ->
  newTLSListenerConfig W conf t = (Ok cfg, t').
Proof.
  unfold listenerBuilt, listenerPaths. fold opts.
  intros (Hk & Hc & -> & certPEM & keyPEM & keyPEM' & cert
          & H1 & H2 & H3 & H4 & H5 & H6 & Hcert & Hn & Hr & Hs & Hp & Hm & Hca).
  unfold newTLSListenerConfig. fold opts.
  apply String.eqb_neq in Hk, Hc. rewrite Hk, Hc. simpl.
  io_unfold. rewrite H1, H2, H3, H4, H5, H6.
  destruct cfg; simpl in *; subst.
  destruct Hca as [(Hca & -> & ->) | (Hca & data & pool & Hd & Ha & -> & ->)].
  - rewrite (proj2 (nonEmpty_false _) Hca). by rewrite <- app_assoc.
  - rewrite (proj2 (nonEmpty_true _) Hca), Hd, Ha. simpl.
    by rewrite <- !app_assoc.
Qed.

Lemma newTLSListenerConfig_trace t r t' :
  newTLSListenerConfig W conf t = (r, t') ->
  exists reads, t' = (t ++ reads)%list /\ reads `prefix_of` listenerPaths opts.
Proof.
  intros H. unfold newTLSListenerConfig in H. io_unfold.
  unfold listenerPaths. fold opts in H |- *.
  set (cert := config.ListenerCertFile opts) in *.
  set (key := config.ListenerKeyFile opts) in *.
  set (ca := config.ProxyCAChainCertFile opts) in *.
  repeat (case_match; simplify_eq/=);
    first
      [ exists []; split; [by rewrite app_nil_r | apply prefix_nil]
      | eexists; split;
        [ rewrite <- ?app_assoc; simpl; reflexivity
        | repeat apply prefix_cons; apply prefix_nil ] ].
Qed.

End ListenerFacts.

Lemma newTLSListenerConfig_stage (W : World) (conf : config.Config)
      (t : list string) :
  let opts := config.Proxy_TLS conf in
  config.ListenerKeyFile opts <> "" -> config.ListenerCertFile opts <> "" ->
  newTLSListenerConfig W conf t
  = match fileContents W (config.ListenerCertFile opts) with
    | Err e => (Err e, (t ++ [config.ListenerCertFile opts])%list)
    | Ok certPEMBlock =>
        let t2 := (t ++ [config.ListenerCertFile opts;
                         config.ListenerKeyFile opts])%list in
        match fileContents W (config.ListenerKeyFile opts) with
        | Err e => (Err e, t2)
        | Ok keyPEMBlock =>
            match decryptPEM W keyPEMBlock
                    (config.ListenerKeyPassword opts) with
            | Err e => (Err e, t2)
            | Ok _ => newTLSListenerConfig W conf t
            end
        end
    end.
Proof.
  intros opts Hk Hc. unfold newTLSListenerConfig at 1. fold opts.
  apply String.eqb_neq in Hk, Hc. rewrite Hk, Hc. simpl. io_unfold.
  destruct (fileContents W (config.ListenerCertFile opts)) as [c|e] eqn:H1;
    [|done].
  destruct (fileContents W (config.ListenerKeyFile opts)) as [k|e] eqn:H2;
    [|by rewrite <- app_assoc].
  destruct (decryptPEM W k _) as [k'|e] eqn:H3; [|by rewrite <- app_assoc].
  unfold newTLSListenerConfig. fold opts. rewrite Hk, Hc. simpl. io_unfold.
  by rewrite H1, H2, H3.
Qed.

(** X10: [newTLSListenerConfig] returns a config exactly when both paths
    are set, the certificate and key files are read, the key passes
    [decryptPEM], certificate and key form a pair, the suite and curve
    names resolve, and the CA chain, if configured, is read and parsed; the
    config then holds that one key pair, the resolved suites and curves,
    server-side suite preference, TLS 1.2 as minimum, and client
    authentication as the CA chain decides; the files read are the
    configured ones, once each, certificate first. *)
Theorem X10_listener_success_iff (W : World) (conf : config.Config)
        (t t' : list string) (cfg : tlsConfig W) :
  newTLSListenerConfig W conf t = (Ok cfg, t')
  <-> listenerBuilt W (config.Proxy_TLS conf) t cfg t'.
Proof.
  split; [apply newTLSListenerConfig_built | apply listenerBuilt_run].
Qed.

Lemma X10_listener_success_iff_witness :
  exists cfg,
    newTLSListenerConfig Demo.world
      (Demo.listener "server.pem" "enc.key" "secret" "" ["RSA-AES128-CBC-SHA"]
         [])
      ["earlier.pem"]
    = (Ok cfg, ["earlier.pem"; "server.pem"; "enc.key"])
    /\ CipherSuites cfg = [0x002f].
Proof.
  pose (cfg := @mkTlsConfig Demo.world
                 [(bytes_of_string "server.pem",
                   bytes_of_string "RSA PRIVATE KEYenc.key")]
                 None None None tls.NoClientCert false
                 [0x002f] true 0x0303 defaultCurvePreferences).
  exists cfg. split; [|reflexivity].
  apply (proj2 (X10_listener_success_iff Demo.world
                  (Demo.listener "server.pem" "enc.key" "secret" ""
                     ["RSA-AES128-CBC-SHA"] [])
                  ["earlier.pem"] ["earlier.pem"; "server.pem"; "enc.key"]
                  cfg)).
  split; [discriminate|]. split; [discriminate|]. split; [reflexivity|].
  exists (bytes_of_string "server.pem"), (bytes_of_string "enc.key"),
    (bytes_of_string "RSA PRIVATE KEYenc.key"),
    (bytes_of_string "server.pem", bytes_of_string "RSA PRIVATE KEYenc.key").
  repeat (split; [vm_compute; reflexivity|]).
  left. repeat split.
Defined.

(** X11: a config returned by [newTLSListenerConfig] always names its
    cipher suites and curves: both lists are non-empty and hold only
    identifiers of the tables, and there is exactly one certificate. *)
Theorem X11_listener_config_is_explicit (W : World) (conf : config.Config)
        (t t' : list string) (cfg : tlsConfig W) :
  newTLSListenerConfig W conf t = (Ok cfg, t') ->
  length (Certificates cfg) = 1%nat
  /\ CipherSuites cfg <> []
  /\ CurvePreferences cfg <> []
  /\ Forall (fun id => exists name, supportedCiphersMap !! name = Some id)
            (CipherSuites cfg)
  /\ Forall (fun id => exists name, supportedCurvesMap !! name = Some id)
            (CurvePreferences cfg).
Proof.
  intros H. apply newTLSListenerConfig_built in H.
  destruct H as (_ & _ & _ & c & k & k' & cert & _ & _ & _ & _ & Hs & Hc
                 & Hcert & _).
  rewrite getCipherSuites_unfold in Hs.
  rewrite getCurvePreferences_unfold in Hc.
  rewrite Hcert. split; [done|].
  split; [eapply resolveOrDefault_nonempty; [|exact Hs];
          unfold defaultCipherSuites; discriminate|].
  split; [eapply resolveOrDefault_nonempty; [|exact Hc];
          unfold defaultCurvePreferences; discriminate|].
  split.
  - eapply resolveOrDefault_range; [|exact Hs].
    apply defaultCipherSuites_named.
  - eapply resolveOrDefault_range; [|exact Hc].
    apply defaultCurvePreferences_named.
Qed.

Lemma X11_listener_config_is_explicit_witness :
  exists cfg : tlsConfig Demo.world,
    CipherSuites cfg = defaultCipherSuites /\ CurvePreferences cfg <> [].
Proof.
  pose (cfg := @mkTlsConfig Demo.world
                 [(bytes_of_string "server.pem", bytes_of_string "server.key")]
                 None None None tls.NoClientCert false
                 defaultCipherSuites true 0x0303 [25]).
  exists cfg. split; [reflexivity|].
  refine (proj1 (proj2 (proj2 (X11_listener_config_is_explicit Demo.world
            (Demo.listener "server.pem" "server.key" "" "" [] ["P521"])
            [] ["server.pem"; "server.key"] cfg _)))).
  vm_compute. reflexivity.
Defined.

(** X12: with an unrecognized cipher-suite or curve name in its
    configuration, [newTLSListenerConfig] never returns a config, whatever
    the files hold. *)
Theorem X12_listener_rejects_unknown_names (W : World)
        (conf : config.Config) (t : list string) :
  Exists (fun n => ~ recognized supportedCiphersMap n)
         (config.ListenerCipherSuites (config.Proxy_TLS conf))
  \/ Exists (fun n => ~ recognized supportedCurvesMap n)
            (config.ListenerCurvePreferences (config.Proxy_TLS conf)) ->
  isOk (fst (newTLSListenerConfig W conf t)) = false.
Proof.
  intros Hbad.
  destruct (newTLSListenerConfig W conf t) as [[cfg|e] t'] eqn:H; [|done].
  apply newTLSListenerConfig_built in H.
  destruct H as (_ & _ & _ & c & k & k' & cert & _ & _ & _ & _ & Hs & Hc & _).
  rewrite getCipherSuites_unfold in Hs.
  rewrite getCurvePreferences_unfold in Hc.
  destruct Hbad as [Hbad|Hbad];
    eapply resolveOrDefault_unrecognized in Hbad.
  - by erewrite Hs in Hbad.
  - by erewrite Hc in Hbad.
Qed.

Lemma X12_listener_rejects_unknown_names_witness :
  isOk (fst (newTLSListenerConfig Demo.world
               (Demo.listener "server.pem" "server.key" "" ""
                  ["RSA-AES128-CBC-SHA"; "RC4-SHA"] [])
               [])) = false.
Proof.
  apply X12_listener_rejects_unknown_names.
  left. apply Exists_cons_tl, Exists_cons_hd.
  intros [id Hid]. vm_compute in Hid. discriminate Hid.
Defined.

Lemma newTLSListenerConfig_failure (W : World) (conf : config.Config)
      (t t' : list string) (e : error) :
  newTLSListenerConfig W conf t = (Err e, t') ->
  exists reads,
    t' = (t ++ reads)%list
    /\ ListenerFailure W (config.Proxy_TLS conf) e reads.
Proof.
  intros H. unfold newTLSListenerConfig in H. io_unfold.
  set (opts := config.Proxy_TLS conf) in *.
  repeat (case_match; simplify_eq/=);
    repeat match goal with
      | H : _ || _ = false |- _ =>
          apply orb_false_iff in H; destruct H as [Hk Hc];
          apply String.eqb_neq in Hk, Hc
      | H : _ || _ = true |- _ =>
          apply orb_true_iff in H; rewrite !String.eqb_eq in H
      | H : nonEmpty _ = true |- _ => apply nonEmpty_true in H
      | H : negb ?b = true |- _ => destruct b; [done | clear H]
      end.
  all: first
         [ exists []; split; [by rewrite app_nil_r | by constructor]
         | eexists; split; [rewrite <- ?app_assoc; simpl; reflexivity|] ].
  all: first
         [ by eapply ListenerCertUnread
         | by eapply ListenerKeyUnread
         | eapply ListenerMaterialBad; [done..|];
           unfold listenerMaterialError; by eauto 12
         | eapply ListenerCAUnread; [done..| |done|done];
           unfold listenerMaterialOk; by eauto 12
         | eapply ListenerCAUnparsed; [done..| |done|done|done];
           unfold listenerMaterialOk; by eauto 12 ].
Qed.

(** X13: [newTLSListenerConfig] reads the configured files in the order
    certificate, key, CA chain (the last only if configured) and stops at
    the first step that fails.  On success it has read them all.  On
    failure the error is that of the first failing step and the files read
    are those up to that step: none if a path is empty; the certificate
    if its read fails; certificate and key if the key read, decryption,
    pairing or a name resolution fails; all three if the CA chain is
    unreadable or holds no certificate. *)
Theorem X13_listener_reads_in_order (W : World) (conf : config.Config)
        (t t' : list string) (r : result (tlsConfig W)) :
  newTLSListenerConfig W conf t = (r, t') ->
  exists reads,
    t' = (t ++ reads)%list
    /\ reads `prefix_of` listenerPaths (config.Proxy_TLS conf)
    /\ match r with
       | Ok cfg =>
           reads = listenerPaths (config.Proxy_TLS conf)
           /\ listenerBuilt W (config.Proxy_TLS conf) t cfg t'
       | Err e => ListenerFailure W (config.Proxy_TLS conf) e reads
       end.
Proof.
  intros H.
  destruct (newTLSListenerConfig_trace W conf _ _ _ H) as (reads & -> & Hp).
  exists reads. split; [done|]. split; [done|].
  destruct r as [cfg|e].
  - pose proof (newTLSListenerConfig_built W conf _ _ _ H) as Hb.
    split; [|done]. destruct Hb as (_ & _ & Ht & _).
    by apply app_inv_head in Ht.
  - destruct (newTLSListenerConfig_failure W conf _ _ _ H)
      as (reads' & Ht & Hf).
    apply app_inv_head in Ht. by subst.
Qed.

Lemma X13_listener_reads_in_order_witness :
  exists reads,
    ["server.pem"; "enc.key"] = ([] ++ reads)%list
    /\ reads `prefix_of`
         listenerPaths
           (config.Proxy_TLS
              (Demo.listener "server.pem" "enc.key" "guess" "ca.pem" [] []))
    /\ ListenerFailure Demo.world
         (config.Proxy_TLS
            (Demo.listener "server.pem" "enc.key" "guess" "ca.pem" [] []))
         (mkError "x509: decryption password incorrect") reads.
Proof.
  apply (X13_listener_reads_in_order Demo.world
           (Demo.listener "server.pem" "enc.key" "guess" "ca.pem" [] [])
           [] ["server.pem"; "enc.key"]
           (Err (mkError "x509: decryption password incorrect"))).
  vm_compute. reflexivity.
Defined.

(** X14: an error reading the certificate or the key file is returned as
    it is, and nothing is read after the file that failed. *)
Theorem X14_listener_read_errors (W : World) (conf : config.Config)
        (t : list string) (e : error) :
  let opts := config.Proxy_TLS conf in
  config.ListenerKeyFile opts <> "" -> config.ListenerCertFile opts <> "" ->
  (fileContents W (config.ListenerCertFile opts) = Err e ->
   newTLSListenerConfig W conf t
   = (Err e, (t ++ [config.ListenerCertFile opts])%list))
  /\ (isOk (fileContents W (config.ListenerCertFile opts)) = true ->
      fileContents W (config.ListenerKeyFile opts) = Err e ->
      newTLSListenerConfig W conf t
      = (Err e, (t ++ [config.ListenerCertFile opts;
                       config.ListenerKeyFile opts])%list)).
Proof.
  intros opts Hk Hc.
  rewrite (newTLSListenerConfig_stage W conf t Hk Hc). fold opts.
  split.
  - by intros ->.
  - destruct (fileContents W (config.ListenerCertFile opts)); [|done].
    by intros _ ->.
Qed.

Lemma X14_listener_read_errors_witness :
  newTLSListenerConfig Demo.world
    (Demo.listener "server.pem" "missing.pem" "" "ca.pem" [] []) []
  = (Err (mkError "open missing.pem: no such file or directory"),
     ["server.pem"; "missing.pem"]).
Proof.
  refine (proj2 (X14_listener_read_errors Demo.world
                   (Demo.listener "server.pem" "missing.pem" "" "ca.pem" [] [])
                   [] _ _ _) _ _).
  - discriminate.
  - discriminate.
  - reflexivity.
  - reflexivity.
Defined.

(** X15: an error of [decryptPEM] on the listener key is returned as it
    is, before any name is resolved and without the CA chain being read;
    so an encrypted key with no password configured fails the build with
    the decryptor's message. *)
Theorem X15_listener_decrypt_error (W : World) (conf : config.Config)
        (t : list string) (certPEMBlock keyPEMBlock : bytes) (e : error) :
  let opts := config.Proxy_TLS conf in
  config.ListenerKeyFile opts <> "" -> config.ListenerCertFile opts <> "" ->
  fileContents W (config.ListenerCertFile opts) = Ok certPEMBlock ->
  fileContents W (config.ListenerKeyFile opts) = Ok keyPEMBlock ->
  decryptPEM W keyPEMBlock (config.ListenerKeyPassword opts) = Err e ->
  newTLSListenerConfig W conf t
  = (Err e, (t ++ [config.ListenerCertFile opts;
                   config.ListenerKeyFile opts])%list).
Proof.
  intros opts Hk Hc H1 H2 H3.
  rewrite (newTLSListenerConfig_stage W conf t Hk Hc). fold opts.
  by rewrite H1, H2, H3.
Qed.

Lemma X15_listener_decrypt_error_witness :
  newTLSListenerConfig Demo.world
    (Demo.listener "server.pem" "enc.key" "" "ca.pem" ["bogus"] []) []
  = (Err (mkError "PEM is encrypted, but password is empty"),
     ["server.pem"; "enc.key"]).
Proof.
  apply (X15_listener_decrypt_error Demo.world
           (Demo.listener "server.pem" "enc.key" "" "ca.pem" ["bogus"] [])
           [] (bytes_of_string "server.pem") (bytes_of_string "enc.key")).
  - discriminate.
  - discriminate.
  - reflexivity.
  - reflexivity.
  - vm_compute. reflexivity.
Defined.

(** ** [newTLSClientConfig] *)

Lemma both_paths (cert key : string) :
  nonEmpty cert && nonEmpty key = true <-> cert <> "" /\ key <> "".
Proof. by rewrite andb_true_iff, !nonEmpty_true. Qed.

Lemma not_both_paths (cert key : string) :
  nonEmpty cert && nonEmpty key = false <-> ~ (cert <> "" /\ key <> "").
Proof.
  rewrite <- both_paths. destruct (nonEmpty cert && nonEmpty key); split; done.
Qed.

Section ClientFacts.

Variable W : World.
Variable conf : config.Config.

Let opts := config.Kafka_TLS conf.

Lemma newTLSClientConfig_built t cfg t' :
  newTLSClientConfig W conf t = (Ok cfg, t') -> clientBuilt W opts t cfg t'.
Proof.
  intros H. unfold newTLSClientConfig, clientKeyPair, clientRootCAs in H.
  io_unfold. unfold clientBuilt, clientPaths. fold opts in H |- *.
  repeat (case_match; simplify_eq/=);
    repeat match goal with
      | H : _ && _ = true |- _ => apply both_paths in H
      | H : _ && _ = false |- _ => apply not_both_paths in H
      | H : nonEmpty _ = true |- _ => apply nonEmpty_true in H
      | H : nonEmpty _ = false |- _ => apply nonEmpty_false in H
      | H : negb ?b = false |- _ => destruct b; [clear H | done]
      end;
    (split; [by rewrite <- ?app_assoc, ?app_nil_r|]);
    repeat (split; [done|]);
    (split; [| by (left + (right; split; [done|]; eauto))]).
  all: first
         [ by right
         | left; destruct_and?; split; [done|]; split; [done|];
           do 4 eexists; by repeat (split; [done|]) ].
Qed.

Lemma clientBuilt_run t cfg t' :
  clientBuilt W opts t cfg t' -> newTLSClientConfig W conf t = (Ok cfg, t').
Proof.
  unfold clientBuilt, clientPaths. fold opts.
  intros (-> & Hs & Hcc & Hauth & Hcs & Hp & Hm & Hcp & Hpair & Hca).
  unfold newTLSClientConfig, clientKeyPair, clientRootCAs. fold opts.
  io_unfold. destruct cfg; simpl in *; subst.
  destruct Hpair as [(Hc & Hk & certPEM & keyPEM & keyPEM' & cert
                      & H1 & H2 & H3 & H4 & -> & ->)
                    | (Hn & -> & ->)];
    [rewrite (proj2 (both_paths _ _) (conj Hc Hk)), H1, H2, H3, H4
    |rewrite (proj2 (not_both_paths _ _) Hn)];
    simpl;
    (destruct Hca as [(Hca & ->) | (Hca & data & pool & Hd & Ha & ->)];
     [rewrite (proj2 (nonEmpty_false _) Hca)
     |rewrite (proj2 (nonEmpty_true _) Hca), Hd, Ha]);
    simpl; by rewrite <- ?app_assoc, ?app_nil_r.
Qed.

Lemma newTLSClientConfig_trace t r t' :
  newTLSClientConfig W conf t = (r, t') ->
  exists reads, t' = (t ++ reads)%list /\ reads `prefix_of` clientPaths opts.
Proof.
  intros H. unfold newTLSClientConfig, clientKeyPair, clientRootCAs in H.
  io_unfold. unfold clientPaths. fold opts in H |- *.
  repeat (case_match; simplify_eq/=);
    first
      [ exists []; split; [by rewrite app_nil_r | apply prefix_nil]
      | eexists; split;
        [ rewrite <- ?app_assoc; simpl; reflexivity
        | repeat apply prefix_cons; apply prefix_nil ] ].
Qed.

End ClientFacts.

(** X16: [newTLSClientConfig] returns a config exactly when the key pair,
    if both of its paths are set, is read, decrypted and paired, and the CA
    chain, if configured, is read and parsed.  The config then holds the
    skip-verify flag, the key pair (with its name index) or no certificate,
    the trust roots or none, and nothing else: no cipher suites, no curves,
    no minimum version, no client-authentication setting.  The files read
    are the configured ones, certificate, key, CA chain, in that order. *)
Theorem X16_client_success_iff (W : World) (conf : config.Config)
        (t t' : list string) (cfg : tlsConfig W) :
  newTLSClientConfig W conf t = (Ok cfg, t')
  <-> clientBuilt W (config.Kafka_TLS conf) t cfg t'.
Proof.
  split; [apply newTLSClientConfig_built | apply clientBuilt_run].
Qed.

Lemma X16_client_success_iff_witness :
  clientBuilt Demo.world
    (config.Kafka_TLS (Demo.client "client.pem" "enc.key" "secret" "ca.pem"
                         true))
    []
    (@mkTlsConfig Demo.world
       [(bytes_of_string "client.pem",
         bytes_of_string "RSA PRIVATE KEYenc.key")]
       (Some 1%nat) (Some [bytes_of_string "ca.pem"]) None
       tls.NoClientCert true [] false 0 [])
    ["client.pem"; "enc.key"; "ca.pem"].
Proof.
  apply (proj1 (X16_client_success_iff Demo.world
                  (Demo.client "client.pem" "enc.key" "secret" "ca.pem" true)
                  [] _ _)).
  vm_compute. reflexivity.
Defined.

Lemma clientPairOk_intro (W : World) (opts : config.KafkaTLS)
      (b : bool) :
  nonEmpty (config.ClientCertFile opts)
  && nonEmpty (config.ClientKeyFile opts) = b ->
  (b = true ->
   exists c k k' cert,
     fileContents W (config.ClientCertFile opts) = Ok c
     /\ fileContents W (config.ClientKeyFile opts) = Ok k
     /\ decryptPEM W k (config.ClientKeyPassword opts) = Ok k'
     /\ tls_X509KeyPair W c k' = Ok cert) ->
  clientPairOk W opts.
Proof.
  intros Hb Hload. unfold clientPairOk. destruct b.
  - apply both_paths in Hb as [Hc Hk]. left. auto.
  - apply not_both_paths in Hb. by right.
Qed.

Lemma newTLSClientConfig_failure (W : World) (conf : config.Config)
      (t t' : list string) (e : error) :
  newTLSClientConfig W conf t = (Err e, t') ->
  exists reads,
    t' = (t ++ reads)%list
    /\ ClientFailure W (config.Kafka_TLS conf) e reads.
Proof.
  intros H. unfold newTLSClientConfig, clientKeyPair, clientRootCAs in H.
  io_unfold.
  set (opts := config.Kafka_TLS conf) in *.
  repeat (case_match; simplify_eq/=);
    repeat match goal with
      | H : negb ?b = true |- _ => destruct b; [done | clear H]
      end.
  all: first
         [ match goal with
           | Hb : nonEmpty _ && nonEmpty _ = _,
             Hca : nonEmpty (config.KafkaCAChainCertFile _) = true |- _ =>
               exists (clientPaths opts); split;
               [ unfold clientPaths; rewrite Hb, Hca; simpl;
                 by rewrite <- ?app_assoc, ?app_nil_r |];
               apply nonEmpty_true in Hca;
               first [ eapply ClientCAUnparsed; [|done|done|done]
                     | eapply ClientCAUnread; [|done|done] ];
               eapply clientPairOk_intro; [exact Hb|];
               first [ discriminate | intros _; by eauto 12 ]
           end
         | match goal with
           | Hb : nonEmpty _ && nonEmpty _ = true |- _ =>
               apply both_paths in Hb as [Hc Hk];
               eexists; split; [rewrite <- ?app_assoc; simpl; reflexivity|];
               first [ by eapply ClientCertUnread
                     | by eapply ClientKeyUnread
                     | eapply ClientMaterialBad; [done..|]; by eauto 12 ]
           end ].
Qed.

(** X17: [newTLSClientConfig] reads the configured files in the order
    certificate, key (both only when both paths are set), CA chain (only
    if configured) and stops at the first step that fails.  On success it
    has read them all.  On failure the error is that of the first failing
    step and the files read are those up to that step: the certificate if
    its read fails; certificate and key if the key read, decryption or
    pairing fails; all configured files if the CA chain is unreadable or
    holds no certificate. *)
Theorem X17_client_reads_in_order (W : World) (conf : config.Config)
        (t t' : list string) (r : result (tlsConfig W)) :
  newTLSClientConfig W conf t = (r, t') ->
  exists reads,
    t' = (t ++ reads)%list
    /\ reads `prefix_of` clientPaths (config.Kafka_TLS conf)
    /\ match r with
       | Ok cfg =>
           reads = clientPaths (config.Kafka_TLS conf)
           /\ clientBuilt W (config.Kafka_TLS conf) t cfg t'
       | Err e => ClientFailure W (config.Kafka_TLS conf) e reads
       end.
Proof.
  intros H.
  destruct (newTLSClientConfig_trace W conf _ _ _ H) as (reads & -> & Hp).
  exists reads. split; [done|]. split; [done|].
  destruct r as [cfg|e].
  - pose proof (newTLSClientConfig_built W conf _ _ _ H) as Hb.
    split; [|done]. destruct Hb as (Ht & _).
    by apply app_inv_head in Ht.
  - destruct (newTLSClientConfig_failure W conf _ _ _ H)
      as (reads' & Ht & Hf).
    apply app_inv_head in Ht. by subst.
Qed.

Lemma X17_client_reads_in_order_witness :
  exists reads,
    ["missing.pem"] = ([] ++ reads)%list
    /\ reads `prefix_of`
         clientPaths
           (config.Kafka_TLS
              (Demo.client "missing.pem" "client.key" "" "ca.pem" false))
    /\ ClientFailure Demo.world
         (config.Kafka_TLS
            (Demo.client "missing.pem" "client.key" "" "ca.pem" false))
         (mkError "open missing.pem: no such file or directory") reads.
Proof.
  apply (X17_client_reads_in_order Demo.world
           (Demo.client "missing.pem" "client.key" "" "ca.pem" false)
           [] ["missing.pem"]
           (Err (mkError "open missing.pem: no such file or directory"))).
  vm_compute. reflexivity.
Defined.

(** X18: when both client paths are set and both files are read, an error
    of [decryptPEM] on the key is returned as it is and the CA chain is not
    read. *)
Theorem X18_client_decrypt_error (W : World) (conf : config.Config)
        (t : list string) (certPEMBlock keyPEMBlock : bytes) (e : error) :
  let opts := config.Kafka_TLS conf in
  config.ClientCertFile opts <> "" -> config.ClientKeyFile opts <> "" ->
  fileContents W (config.ClientCertFile opts) = Ok certPEMBlock ->
  fileContents W (config.ClientKeyFile opts) = Ok keyPEMBlock ->
  decryptPEM W keyPEMBlock (config.ClientKeyPassword opts) = Err e ->
  newTLSClientConfig W conf t
  = (Err e, (t ++ [config.ClientCertFile opts;
                   config.ClientKeyFile opts])%list).
Proof.
  intros opts Hc Hk H1 H2 H3.
  unfold newTLSClientConfig, clientKeyPair. fold opts.
  rewrite (proj2 (both_paths _ _) (conj Hc Hk)). io_unfold.
  rewrite H1, H2, H3. by rewrite <- app_assoc.
Qed.

Lemma X18_client_decrypt_error_witness :
  newTLSClientConfig Demo.world
    (Demo.client "client.pem" "enc.key" "guess" "ca.pem" false) []
  = (Err (mkError "x509: decryption password incorrect"),
     ["client.pem"; "enc.key"]).
Proof.
  apply (X18_client_decrypt_error Demo.world
           (Demo.client "client.pem" "enc.key" "guess" "ca.pem" false)
           [] (bytes_of_string "client.pem") (bytes_of_string "enc.key")).
  - discriminate.
  - discriminate.
  - reflexivity.
  - reflexivity.
  - vm_compute. reflexivity.
Defined.

(** X19: a configured CA chain that cannot be read, or from which no
    certificate is parsed, never yields a config, from either builder. *)
Theorem X19_unusable_CA_chain (W : World) (conf : config.Config)
        (t : list string) :
  (unusableCAChain W (config.ProxyCAChainCertFile (config.Proxy_TLS conf)) ->
   isOk (fst (newTLSListenerConfig W conf t)) = false)
  /\ (unusableCAChain W
        (config.KafkaCAChainCertFile (config.Kafka_TLS conf)) ->
      isOk (fst (newTLSClientConfig W conf t)) = false).
Proof.
  split; intros [Hne Hbad].
  - destruct (newTLSListenerConfig W conf t) as [[cfg|e] t'] eqn:H; [|done].
    apply newTLSListenerConfig_built in H.
    destruct H as (_ & _ & _ & c & k & k' & cert & H). destruct_and!.
    match goal with
    | H : _ \/ _ |- _ =>
        destruct H as [[? _] | (_ & data & pool & Hd & Ha & _)]; [done|]
    end.
    destruct Hbad as [Hbad | (data' & Hd' & Hbad)].
    + by rewrite Hd in Hbad.
    + rewrite Hd in Hd'. injection Hd' as <-. by rewrite Ha in Hbad.
  - destruct (newTLSClientConfig W conf t) as [[cfg|e] t'] eqn:H; [|done].
    apply newTLSClientConfig_built in H. unfold clientBuilt in H.
    destruct_and!.
    match goal with
    | H : (config.KafkaCAChainCertFile _ = _ /\ _) \/ _ |- _ =>
        destruct H as [[? _] | (_ & data & pool & Hd & Ha & _)]; [done|]
    end.
    destruct Hbad as [Hbad | (data' & Hd' & Hbad)].
    + by rewrite Hd in Hbad.
    + rewrite Hd in Hd'. injection Hd' as <-. by rewrite Ha in Hbad.
Qed.

Lemma X19_unusable_CA_chain_witness :
  isOk (fst (newTLSClientConfig Demo.world
               (Demo.client "" "" "" "missing.pem" false) [])) = false.
Proof.
  apply (proj2 (X19_unusable_CA_chain Demo.world
                  (Demo.client "" "" "" "missing.pem" false) [])).
  split; [discriminate|]. left. reflexivity.
Defined.
